(** * Icon bundle script: [build-icons.ts] and its CommonJS twin

    A shallow embedding of the two variants of the Iconify bundle script
    (the ES-module one, [src/plugins/iconify/build-icons.ts], which locates
    packages with [import.meta.resolve], and the CommonJS one, which uses
    [require.resolve]) together with the properties of its pipeline:
    grouping of icon references, loading of JSON icon sets, clean-up of SVG
    directories and emission of the stylesheet.

    The functions of [@iconify/utils], [@iconify/tools] and of Node that the
    script calls are not part of the repository.  They are taken as
    parameters (the classes [Iconify] and [Node]); where
    a property depends on what such a function does, its contract is a
    named hypothesis. *)

From Stdlib Require Import String Ascii List Bool Arith NArith Lia.
Import ListNotations.
Open Scope string_scope.
Open Scope list_scope.

(* ================================================================= *)
(** ** JavaScript values used by the script *)

Module Js.

(** An ordinary object used as a dictionary: its own properties, listed in
    property enumeration order (the order of [Object.keys] and of
    [for ... in]): array-index keys first, in ascending numeric order, then
    the other keys in creation order. *)
Definition Obj (V : Type) : Type := list (string * V).

Section Objects.
Context {V : Type}.

Fixpoint get (k : string) (o : Obj V) : option V :=
  match o with
  | [] => None
  | (k', v) :: o' => if k' =? k then Some v else get k o'
  end.

Definition keys (o : Obj V) : list string := map fst o.

Definition digit (c : ascii) : option N :=
  let n := N_of_ascii c in
  if ((48 <=? n) && (n <=? 57))%N then Some (n - 48)%N else None.

Fixpoint digits_value (acc : N) (s : string) : option N :=
  match s with
  | EmptyString => Some acc
  | String c s' =>
      match digit c with
      | Some d => digits_value (10 * acc + d)%N s'
      | None => None
      end
  end.

(** A key is an array index when it is the canonical decimal form of an
    integer below [2^32 - 1]. *)
Definition array_index (k : string) : option N :=
  match k with
  | EmptyString => None
  | String c rest =>
      if (Ascii.eqb c "0" && negb (rest =? ""))%bool then None
      else match digits_value 0 k with
           | Some n => if (n <? 4294967295)%N then Some n else None
           | None => None
           end
  end.

Fixpoint replace (k : string) (v : V) (o : Obj V) : Obj V :=
  match o with
  | [] => []
  | (k', v') :: o' =>
      if k' =? k then (k', v) :: o' else (k', v') :: replace k v o'
  end.

Fixpoint insert_index (i : N) (k : string) (v : V) (o : Obj V) : Obj V :=
  match o with
  | [] => [(k, v)]
  | (k', v') :: o' =>
      match array_index k' with
      | Some j =>
          if (j <? i)%N then (k', v') :: insert_index i k v o'
          else (k, v) :: o
      | None => (k, v) :: o
      end
  end.

(** [o[k] = v]: an existing property keeps its place, a new one is created
    at its place in enumeration order. *)
Definition set (k : string) (v : V) (o : Obj V) : Obj V :=
  match get k o with
  | Some _ => replace k v o
  | None =>
      match array_index k with
      | Some i => insert_index i k v o
      | None => o ++ [(k, v)]
      end
  end.

(** [delete o[k]]. *)
Fixpoint delete (k : string) (o : Obj V) : Obj V :=
  match o with
  | [] => []
  | (k', v) :: o' => if k' =? k then o' else (k', v) :: delete k o'
  end.

(** No property is listed twice. *)
Definition wf (o : Obj V) : Prop := NoDup (keys o).

End Objects.

(** [Array.prototype.includes] on an array of strings. *)
Definition includes (x : string) (l : list string) : bool :=
  existsb (String.eqb x) l.

(** The line feed of the literal ['\n']. *)
Definition LF : string := String (ascii_of_nat 10) EmptyString.

(** [Array.prototype.join] on an array of strings. *)
Fixpoint join (sep : string) (l : list string) : string :=
  match l with
  | [] => ""
  | [x] => x
  | x :: l' => (x ++ sep ++ join sep l')%string
  end.

End Js.

(** A thrown [Error] object, by its message. *)
Record Exn : Type := Error { message : string }.

(* ================================================================= *)
(** ** Types of [@iconify/types] and the configuration of the script *)

(** [IconifyIconName], as far as the script reads it. *)
Record IconifyIconName : Type := mkIconName {
  ref_prefix : string;
  ref_name : string
}.

(** [IconifyJSON], as far as the script reads it: the prefix and the icons,
    keyed by name.  [Icon] is the data of one icon ([IconifyIcon]). *)
Record IconifyJSON (Icon : Type) : Type := mkJSON {
  prefix : string;
  icons : Js.Obj Icon
}.
Arguments mkJSON {Icon}.
Arguments prefix {Icon}.
Arguments icons {Icon}.

Module CustomSVG.
Record t : Type := mk { dir : string; monotone : bool; prefix : string }.
End CustomSVG.

Module CustomJSON.
Record t : Type := mk { filename : string; icons : option (list string) }.
End CustomJSON.

(** An entry of [sources.json]: [string | BundleScriptCustomJSONConfig]. *)
Definition JSONSource : Type := (string + CustomJSON.t)%type.

Module BundleScriptConfig.
Record t : Type := mk {
  svg : option (list CustomSVG.t);
  icons : option (list string);
  json : option (list JSONSource)
}.
End BundleScriptConfig.

(** The options the script passes to [getIconsCSS] and [parseColors]. *)
Record IconCSSOptions : Type := { iconSelector : string }.

Record ParseColorsOptions (Color : Type) : Type := {
  defaultColor : string;
  callback : string -> string -> option Color -> string
}.
Arguments defaultColor {Color}.
Arguments callback {Color}.

(* ================================================================= *)
(** ** Effects: console, file system and exceptions *)

Inductive LogArg : Type :=
| LStr (s : string)
| LErr (e : Exn).

Inductive Event : Type :=
| Mkdir (dir : string)
| WriteFile (path data : string)
| ConsoleLog (args : list LogArg)
| ConsoleError (args : list LogArg).

(** A computation of the script: the events it performed, in order, and
    either the exception that ended it or its result. *)
Definition M (A : Type) : Type := (list Event * (Exn + A))%type.

Definition ret {A} (a : A) : M A := ([], inr a).

Definition bind {A B} (m : M A) (f : A -> M B) : M B :=
  match m with
  | (t, inl e) => (t, inl e)
  | (t, inr a) => let '(t', r) := f a in (t ++ t', r)
  end.

Definition throw {A} (e : Exn) : M A := ([], inl e).

Definition emit (ev : Event) : M unit := ([ev], inr tt).

(** A call that performs no event of its own: it returns or throws. *)
Definition lift {A} (r : Exn + A) : M A := ([], r).

(** [try { m } catch (err) { h err }] *)
Definition try_catch {A} (m : M A) (h : Exn -> M A) : M A :=
  match m with
  | (t, inl e) => let '(t', r) := h e in (t ++ t', r)
  | (t, inr a) => (t, inr a)
  end.

(** The outcome of a [try] block, handed to what follows it. *)
Definition attempt {A} (m : M A) : M (Exn + A) := (fst m, inr (snd m)).

Notation "x <- m ;; k" := (bind m (fun x => k))
  (at level 61, m at next level, right associativity).
Notation "m ;;; k" := (bind m (fun _ => k))
  (at level 61, right associativity).

(** A [for] loop over an array, threading the state it mutates. *)
Fixpoint for_each {A S} (l : list A) (body : S -> A -> M S) (s : S) : M S :=
  match l with
  | [] => ret s
  | a :: l' => s' <- body s a ;; for_each l' body s'
  end.

Definition events {A} (m : M A) : list Event := fst m.
Definition outcome {A} (m : M A) : Exn + A := snd m.

Definition is_write (ev : Event) : bool :=
  match ev with WriteFile _ _ => true | _ => false end.

(** The calls to [fs.writeFile] among the events. *)
Definition writes (t : list Event) : list Event := filter is_write t.

(* ================================================================= *)
(** ** The toolkit and the platform, as the script sees them *)

(** Modelled from the spec: the [IconSet] class of [@iconify/tools] is not
    part of the repository.  An icon set is a prefix and its entries keyed
    by name; an entry has a type (['icon'] for an icon) and the icon's
    data. *)
Record IconSet (Icon : Type) : Type := mkIconSet {
  set_prefix : string;
  entries : Js.Obj (string * Icon)
}.
Arguments mkIconSet {Icon}.
Arguments set_prefix {Icon}.
Arguments entries {Icon}.

(** The functions and types of [@iconify/utils] and [@iconify/tools] that the
    script uses.  [icon_toSVG] and [svg_getIcon] are the conversions between
    the data of an icon and an [SVG] instance that [IconSet.toSVG] and
    [IconSet.fromSVG] go through.  The functions that work on an [SVG]
    instance in place return the instance they leave, or throw. *)
Class Iconify : Type := {
  Icon : Type;
  SVG : Type;
  Color : Type;
  stringToIcon : string -> option IconifyIconName;
  getIcons : IconifyJSON Icon -> list string -> option (IconifyJSON Icon);
  getIconsCSS : IconifyJSON Icon -> list string -> IconCSSOptions -> string;
  isEmptyColor : Color -> bool;
  cleanupSVG : SVG -> Exn + SVG;
  parseColors : SVG -> ParseColorsOptions Color -> Exn + SVG;
  runSVGO : SVG -> Exn + SVG;
  importDirectory : string -> string -> Exn + IconSet Icon;
  icon_toSVG : Icon -> option SVG;
  svg_getIcon : SVG -> Icon
}.

(** Node: the file system, [JSON.parse] (on a file that holds an icon set),
    the two ways of locating a package file, and the path of the output,
    [join(dirname(fileURLToPath(import.meta.url)), 'icons.css')]. *)
Class Node (I : Iconify) : Type := {
  fs_readFile : string -> Exn + string;
  fs_mkdir : string -> Exn + unit;
  fs_writeFile : string -> string -> Exn + unit;
  JSON_parse : string -> Exn + IconifyJSON Icon;
  import_meta_resolve : string -> Exn + string;
  require_resolve : string -> Exn + string;
  fileURLToPath : string -> Exn + string;
  dirname : string -> string;
  target : string
}.

(* ================================================================= *)
(** ** [IconSet] *)

Module IconSetModel.
Section Methods.
Context {I : Iconify}.

(** Modelled from the spec: [IconSet.toSVG] of [@iconify/tools], the parsed
    SVG of the named icon, or [null] when it cannot be obtained. *)
Definition toSVG (iconSet : IconSet Icon) (name : string) : option SVG :=
  match Js.get name (entries iconSet) with
  | Some (_, icon) => icon_toSVG icon
  | None => None
  end.

(** Modelled from the spec: [IconSet.remove] of [@iconify/tools], which
    removes the named entry from the set. *)
Definition remove (name : string) (iconSet : IconSet Icon) : IconSet Icon :=
  mkIconSet (set_prefix iconSet) (Js.delete name (entries iconSet)).

(** Modelled from the spec: [IconSet.fromSVG] of [@iconify/tools], which
    writes the icon of an SVG instance into the set, keyed by name. *)
Definition fromSVG (name : string) (svg : SVG) (iconSet : IconSet Icon)
  : IconSet Icon :=
  mkIconSet (set_prefix iconSet)
            (Js.set name ("icon", svg_getIcon svg) (entries iconSet)).

Definition is_icon (e : string * (string * Icon)) : bool :=
  fst (snd e) =? "icon".

(** Modelled from the spec: [IconSet.export] of [@iconify/tools], the
    icons of the set under its prefix. *)
Definition export (iconSet : IconSet Icon) : IconifyJSON Icon :=
  mkJSON (set_prefix iconSet)
         (map (fun e => (fst e, snd (snd e)))
              (filter is_icon (entries iconSet))).

(** Modelled from the spec: [IconSet.forEach] of [@iconify/tools], which
    calls the callback on the entries one at a time, each call awaited
    before the next; the callback works on the set itself.  [forEach_step]
    is one turn of its loop, on an entry that is still there. *)
Definition forEach_step
  (callback : string -> string -> IconSet Icon -> M (IconSet Icon))
  (iconSet : IconSet Icon) (name : string) : M (IconSet Icon) :=
  match Js.get name (entries iconSet) with
  | Some (type, _) => callback name type iconSet
  | None => ret iconSet
  end.

Definition forEach
  (callback : string -> string -> IconSet Icon -> M (IconSet Icon))
  (iconSet : IconSet Icon) : M (IconSet Icon) :=
  for_each (Js.keys (entries iconSet)) (forEach_step callback) iconSet.

End Methods.
End IconSetModel.

(* ================================================================= *)
(** ** The script *)

Section Script.
Context {I : Iconify} {node : Node I}.

(** *** [organizeIconsList] *)

(** The body of the [icons.forEach] callback, on the object [sorted]. *)
Definition organize_icon (sorted : Js.Obj (list string)) (icon : string)
  : Js.Obj (list string) :=
  match stringToIcon icon with
  | None => sorted
  | Some item =>
      let prefix := ref_prefix item in
      let '(sorted, prefixList) :=
        match Js.get prefix sorted with
        | Some l => (sorted, l)
        | None => (Js.set prefix [] sorted, [])
        end in
      let name := ref_name item in
      if Js.includes name prefixList then sorted
      else Js.set prefix (prefixList ++ [name]) sorted
  end.

Definition organizeIconsList (icons : list string) : Js.Obj (list string) :=
  fold_left organize_icon icons [].

(** *** Locating package files *)

(** [fileURLToPath(await import.meta.resolve(spec))] *)
Definition resolve_esm (spec : string) : M string :=
  url <- lift (import_meta_resolve spec) ;; lift (fileURLToPath url).

(** [require.resolve(spec)] *)
Definition resolve_cjs (spec : string) : M string :=
  lift (require_resolve spec).

(** *** Console and file system calls *)

Definition console_log (args : list LogArg) : M unit := emit (ConsoleLog args).
Definition console_error (args : list LogArg) : M unit :=
  emit (ConsoleError args).

Definition mkdir (dir : string) : M unit :=
  emit (Mkdir dir) ;;; lift (fs_mkdir dir).

Definition writeFile (path data : string) : M unit :=
  emit (WriteFile path data) ;;; lift (fs_writeFile path data).

(** *** Filling [sources.json] *)

(** [sources.json!.push(item)]: the assertion [!] has no effect at run time,
    so a missing [sources.json] is a [TypeError]. *)
Definition push_json (sources : BundleScriptConfig.t) (item : JSONSource)
  : M BundleScriptConfig.t :=
  match BundleScriptConfig.json sources with
  | Some l =>
      ret (BundleScriptConfig.mk (BundleScriptConfig.svg sources)
             (BundleScriptConfig.icons sources) (Some (l ++ [item])))
  | None =>
      throw (Error "Cannot read properties of undefined (reading 'push')")
  end.

Definition bxl_icons : list string :=
  ["facebook"; "twitter"; "github"; "google"; "linkedin"].

(** The two resolutions and the two pushes that open the script. *)
Definition fill_sources (resolve : string -> M string)
  (sources : BundleScriptConfig.t) : M BundleScriptConfig.t :=
  riJsonPath <- resolve "@iconify-json/ri/icons.json" ;;
  bxlJsonPath <- resolve "@iconify-json/bxl/icons.json" ;;
  sources <- push_json sources (inl riJsonPath) ;;
  push_json sources (inr (CustomJSON.mk bxlJsonPath (Some bxl_icons))).

(** One turn of [for (const prefix in organizedList)]. *)
Definition convert_prefix (resolve : string -> M string)
  (organizedList : Js.Obj (list string))
  (sourcesJSON : list JSONSource) (prefix : string) : M (list JSONSource) :=
  filename <- resolve ("@iconify/json/json/" ++ prefix ++ ".json")%string ;;
  ret (sourcesJSON
         ++ [inr (CustomJSON.mk filename (Js.get prefix organizedList))]).

(** "Convert sources.icons to sources.json". *)
Definition convert_icons (resolve : string -> M string)
  (sources : BundleScriptConfig.t) : M BundleScriptConfig.t :=
  match BundleScriptConfig.icons sources with
  | Some ((_ :: _) as icons) =>
      let sourcesJSON :=
        match BundleScriptConfig.json sources with
        | Some l => l
        | None => []
        end in
      let organizedList := organizeIconsList icons in
      sourcesJSON <- for_each (Js.keys organizedList)
                       (convert_prefix resolve organizedList) sourcesJSON ;;
      ret (BundleScriptConfig.mk (BundleScriptConfig.svg sources)
             (BundleScriptConfig.icons sources) (Some sourcesJSON))
  | _ => ret sources
  end.

(** *** "Bundle JSON files and collect icons" *)

Definition source_filename (item : JSONSource) : string :=
  match item with
  | inl s => s
  | inr c => CustomJSON.filename c
  end.

(** The names to keep, when
    [typeof item !== 'string' && item.icons?.length] holds. *)
Definition source_filter (item : JSONSource) : option (list string) :=
  match item with
  | inl _ => None
  | inr c =>
      match CustomJSON.icons c with
      | Some (n :: l) => Some (n :: l)
      | _ => None
      end
  end.

(** One turn of the loop over [sources.json]. *)
Definition load_json (allIcons : list (IconifyJSON Icon)) (item : JSONSource)
  : M (list (IconifyJSON Icon)) :=
  let filename := source_filename item in
  text <- lift (fs_readFile filename) ;;
  content <- lift (JSON_parse text) ;;
  match source_filter item with
  | Some names =>
      match getIcons content names with
      | None =>
          throw (Error ("Cannot find required icons in " ++ filename)%string)
      | Some filteredContent => ret (allIcons ++ [filteredContent])
      end
  | None => ret (allIcons ++ [content])
  end.

Definition bundle_json (sources : BundleScriptConfig.t)
  (allIcons : list (IconifyJSON Icon)) : M (list (IconifyJSON Icon)) :=
  match BundleScriptConfig.json sources with
  | Some l => for_each l load_json allIcons
  | None => ret allIcons
  end.

(** *** "Bundle custom SVG icons and collect icons" *)

(** The [callback] option given to [parseColors]. *)
Definition parseColors_callback (attr colorStr : string)
  (color : option Color) : string :=
  if match color with
     | None => true
     | Some c => isEmptyColor c
     end
  then colorStr else "currentColor".

Definition monotone_options : ParseColorsOptions Color :=
  {| defaultColor := "currentColor"; callback := parseColors_callback |}.

(** The body of the [try] block: clean up, recolour, optimise. *)
Definition cleanup_icon (source : CustomSVG.t) (svg : SVG) : M SVG :=
  svg <- lift (cleanupSVG svg) ;;
  svg <- (if CustomSVG.monotone source
          then lift (parseColors svg monotone_options)
          else ret svg) ;;
  lift (runSVGO svg).

(** The callback given to [iconSet.forEach]. *)
Definition forEach_callback (source : CustomSVG.t) (name type : string)
  (iconSet : IconSet Icon) : M (IconSet Icon) :=
  if negb (type =? "icon") then ret iconSet
  else
    match IconSetModel.toSVG iconSet name with
    | None => ret (IconSetModel.remove name iconSet)
    | Some svg =>
        r <- attempt (cleanup_icon source svg) ;;
        match r with
        | inl err =>
            console_error
              [LStr ("Error parsing " ++ name ++ " from "
                       ++ CustomSVG.dir source ++ ":")%string;
               LErr err] ;;;
            ret (IconSetModel.remove name iconSet)
        | inr svg => ret (IconSetModel.fromSVG name svg iconSet)
        end
    end.

(** One turn of the loop over [sources.svg]. *)
Definition import_svg (allIcons : list (IconifyJSON Icon))
  (source : CustomSVG.t) : M (list (IconifyJSON Icon)) :=
  iconSet <- lift (importDirectory (CustomSVG.dir source)
                     (CustomSVG.prefix source)) ;;
  iconSet <- IconSetModel.forEach (forEach_callback source) iconSet ;;
  ret (allIcons ++ [IconSetModel.export iconSet]).

Definition bundle_svg (sources : BundleScriptConfig.t)
  (allIcons : list (IconifyJSON Icon)) : M (list (IconifyJSON Icon)) :=
  match BundleScriptConfig.svg sources with
  | Some l => for_each l import_svg allIcons
  | None => ret allIcons
  end.

(** *** "Generate CSS from collected icons" *)

Definition default_selector : string := ".{prefix}-{name}".

Definition css_block (iconSet : IconifyJSON Icon) : string :=
  getIconsCSS iconSet (Js.keys (icons iconSet))
    {| iconSelector := default_selector |}.

Definition cssContent (allIcons : list (IconifyJSON Icon)) : string :=
  Js.join Js.LF (map css_block allIcons).

(** *** The asynchronous function *)

(** The function up to the end of the loop over [sources.json]: the
    sources as they are then, and the icon sets collected so far. *)
Definition collect_json (resolve : string -> M string)
  (sources : BundleScriptConfig.t)
  : M (BundleScriptConfig.t * list (IconifyJSON Icon)) :=
  sources <- fill_sources resolve sources ;;
  try_catch (mkdir (dirname target)) (fun _ => ret tt) ;;;
  sources <- convert_icons resolve sources ;;
  allIcons <- bundle_json sources [] ;;
  ret (sources, allIcons).

(** Everything up to the generation of the stylesheet: the icon sets
    collected in [allIcons]. *)
Definition collect_icons (resolve : string -> M string)
  (sources : BundleScriptConfig.t) : M (list (IconifyJSON Icon)) :=
  loaded <- collect_json resolve sources ;;
  bundle_svg (fst loaded) (snd loaded).

Definition main (resolve : string -> M string)
  (sources : BundleScriptConfig.t) : M unit :=
  allIcons <- collect_icons resolve sources ;;
  writeFile target (cssContent allIcons) ;;;
  console_log [LStr ("Saved CSS to " ++ target ++ "!")%string].

(** The whole script: the function is called and its rejection is logged. *)
Definition run (resolve : string -> M string)
  (sources : BundleScriptConfig.t) : M unit :=
  try_catch (main resolve sources) (fun err => console_error [LErr err]).

(** The ES-module variant ([build-icons.ts]) and the CommonJS variant: the
    text of the two differs in the resolution calls only. *)
Definition run_esm : BundleScriptConfig.t -> M unit := run resolve_esm.
Definition run_cjs : BundleScriptConfig.t -> M unit := run resolve_cjs.

End Script.

(** The [sources] object as the script declares it. *)
Definition sources : BundleScriptConfig.t :=
  BundleScriptConfig.mk (Some []) (Some []) (Some []).

(* ================================================================= *)
(** ** What the properties are stated with *)

(** The names of a list in the order they are first seen, each once. *)
Fixpoint first_seen (l : list string) : list string :=
  match l with
  | [] => []
  | x :: l' => x :: filter (fun y => negb (y =? x)) (first_seen l')
  end.

(** The names written under a prefix in a list of references. *)
Definition names_under (p : string) (refs : list IconifyIconName)
  : list string :=
  map ref_name (filter (fun r => ref_prefix r =? p) refs).

(** [s.startsWith(pat)] *)
Fixpoint starts_with (pat s : string) : bool :=
  match pat, s with
  | EmptyString, _ => true
  | String _ _, EmptyString => false
  | String a pat', String b s' => (Ascii.eqb a b && starts_with pat' s')%bool
  end.

(** [s] with every occurrence of the non-empty [pat] replaced by [rep];
    [skip] characters of an occurrence are still to be passed over. *)
Fixpoint replace_from (skip : nat) (pat rep s : string) : string :=
  match s with
  | EmptyString => EmptyString
  | String c s' =>
      match skip with
      | S k => replace_from k pat rep s'
      | O =>
          if starts_with pat s
          then (rep ++ replace_from (String.length pat - 1) pat rep s')%string
          else String c (replace_from 0 pat rep s')
      end
  end.

Definition replace_all (pat rep s : string) : string :=
  replace_from 0 pat rep s.

(** A selector template with [{prefix}] and [{name}] substituted. *)
Definition substitute (template p n : string) : string :=
  replace_all "{name}" n (replace_all "{prefix}" p template).


(** A computation that does not call [fs.writeFile]. *)
Definition quiet {A} (m : M A) : Prop := writes (events m) = [].

(** The rules of a block: for each name that the set holds, the selector and
    the icon's data. *)
Definition rules_of {Icon : Type} (template : string)
  (iconSet : IconifyJSON Icon) (names : list string) : list (string * Icon) :=
  flat_map
    (fun n =>
       match Js.get n (icons iconSet) with
       | Some icon => [(substitute template (prefix iconSet) n, icon)]
       | None => []
       end)
    names.

(** [prefixList.includes(name) || prefixList.push(name)], and its repetition
    over a list of names. *)
Definition push_unique (l : list string) (n : string) : list string :=
  if Js.includes n l then l else l ++ [n].

Definition push_all (l names : list string) : list string :=
  fold_left push_unique names l.

Section Contracts.
Context {I : Iconify}.

(** The strings that [stringToIcon] parses. *)
Definition well_formed (icon : string) : bool :=
  match stringToIcon icon with
  | Some _ => true
  | None => false
  end.





(** The package files that a run asks the resolver for. *)
Definition package_files (sources : BundleScriptConfig.t) : list string :=
  "@iconify-json/ri/icons.json" :: "@iconify-json/bxl/icons.json"
  :: map (fun p => ("@iconify/json/json/" ++ p ++ ".json")%string)
       match BundleScriptConfig.icons sources with
       | Some icons => Js.keys (organizeIconsList icons)
       | None => []
       end.

Definition svg_dirs (sources : BundleScriptConfig.t) : list CustomSVG.t :=
  match BundleScriptConfig.svg sources with
  | Some l => l
  | None => []
  end.

(** The data an icon of a directory ends with, when it can be parsed and
    cleaned up. *)
Definition processed (source : CustomSVG.t) (icon : Icon) : option Icon :=
  match icon_toSVG icon with
  | None => None
  | Some svg =>
      match outcome (cleanup_icon source svg) with
      | inr svg' => Some (svg_getIcon svg')
      | inl _ => None
      end
  end.

(** What the callback leaves of an entry of the set: an entry that is not
    an icon as it is, an icon with its new data, or nothing. *)
Definition process_entry (source : CustomSVG.t) (e : string * (string * Icon))
  : Js.Obj (string * Icon) :=
  if IconSetModel.is_icon e
  then match processed source (snd (snd e)) with
       | Some icon => [(fst e, ("icon", icon))]
       | None => []
       end
  else [e].

(** The entries of a directory's set that are exported: the icons that
    were processed, with their new data. *)
Definition surviving (source : CustomSVG.t) (es : Js.Obj (string * Icon))
  : Js.Obj Icon :=
  flat_map
    (fun e =>
       if IconSetModel.is_icon e
       then match processed source (snd (snd e)) with
            | Some icon => [(fst e, icon)]
            | None => []
            end
       else [])
    es.

(** What is exported for a directory whose files were imported as
    [iconSet]. *)
Definition exported (source : CustomSVG.t) (iconSet : IconSet Icon)
  : IconifyJSON Icon :=
  mkJSON (set_prefix iconSet) (surviving source (entries iconSet)).


End Contracts.

(* ================================================================= *)
(** ** A small installation, to run the script on *)

Module Example.

(** An icon and an SVG instance are the attributes of one path. *)
Definition Attrs : Type := Js.Obj string.

Inductive Colour : Type :=
| none
| transparent
| current
| rgb (hex : string).

Definition stringToColor (s : string) : option Colour :=
  if s =? "none" then Some none
  else if s =? "transparent" then Some transparent
  else if s =? "currentColor" then Some current
  else if String.prefix "#" s then Some (rgb s)
  else None.

Definition is_empty (c : Colour) : bool :=
  match c with
  | none | transparent => true
  | _ => false
  end.

Fixpoint split_colon (acc s : string) : option IconifyIconName :=
  match s with
  | EmptyString => None
  | String c s' =>
      if Ascii.eqb c ":" then
        if ((acc =? "") || (s' =? ""))%bool then None
        else Some (mkIconName acc s')
      else split_colon (acc ++ String c EmptyString)%string s'
  end.

Definition parse_reference (s : string) : option IconifyIconName :=
  split_colon "" s.

Definition pick (data : IconifyJSON Attrs) (names : list string)
  : option (IconifyJSON Attrs) :=
  match filter (fun e => Js.includes (fst e) names) (icons data) with
  | [] => None
  | l => Some (mkJSON (prefix data) l)
  end.

Definition format (rules : list (string * Attrs)) : string :=
  Js.join Js.LF
    (map (fun r =>
            match Js.get "d" (snd r) with
            | Some d => (fst r ++ "{path:" ++ d ++ "}")%string
            | None => (fst r ++ "{}")%string
            end)
       rules).

Definition render (iconSet : IconifyJSON Attrs) (names : list string)
  (options : IconCSSOptions) : string :=
  format (rules_of (iconSelector options) iconSet names).

Definition is_colour_attr (k : string) : bool :=
  ((k =? "fill") || (k =? "stroke"))%bool.

Definition recolour (svg : Attrs) (options : ParseColorsOptions Colour)
  : Exn + Attrs :=
  inr (map (fun a =>
              if is_colour_attr (fst a)
              then (fst a, callback options (fst a) (snd a)
                             (stringToColor (snd a)))
              else a)
         svg).

Definition clean (svg : Attrs) : Exn + Attrs :=
  match Js.get "onload" svg with
  | Some _ => inl (Error "Unexpected attribute onload")
  | None => inr svg
  end.

Definition to_svg (icon : Attrs) : option Attrs :=
  match Js.get "d" icon with
  | Some _ => Some icon
  | None => None
  end.

Definition star : Attrs := [("d", "M0 0h8"); ("fill", "#ff0000")].
Definition moon : Attrs := [("d", "M1 1h6"); ("fill", "none")].
Definition broken : Attrs := [("fill", "#00ff00")].
Definition unsafe : Attrs := [("d", "M2 2"); ("onload", "x()")].

(** The files of [assets/svg]: [broken] yields no SVG, and cleaning
    [unsafe] up throws. *)
Definition files : Js.Obj (string * Attrs) :=
  [("star", ("icon", star)); ("broken", ("icon", broken));
   ("moon", ("icon", moon)); ("unsafe", ("icon", unsafe))].

Definition read_directory (dir p : string) : Exn + IconSet Attrs :=
  if dir =? "assets/svg" then inr (mkIconSet p files)
  else inl (Error ("ENOENT: no such directory " ++ dir)%string).

#[export] Instance iconify : Iconify := {|
  Icon := Attrs;
  SVG := Attrs;
  Color := Colour;
  stringToIcon := parse_reference;
  getIcons := pick;
  getIconsCSS := render;
  isEmptyColor := is_empty;
  cleanupSVG := clean;
  parseColors := recolour;
  runSVGO := inr;
  importDirectory := read_directory;
  icon_toSVG := to_svg;
  svg_getIcon := fun svg => svg
|}.

Definition modules : string := "/app/node_modules/".

Definition ri : IconifyJSON Attrs :=
  mkJSON "ri" [("home", [("d", "M3 3")]); ("user", [("d", "M4 4")])].

Definition bxl : IconifyJSON Attrs :=
  mkJSON "bxl" [("github", [("d", "M5 5")]); ("gitlab", [("d", "M6 6")]);
                ("google", [("d", "M7 7")])].

Definition mdi : IconifyJSON Attrs :=
  mkJSON "mdi" [("account", [("d", "M8 8")]); ("home", [("d", "M9 9")]);
                ("login", [("d", "M1 0")])].

Definition read_file (path : string) : Exn + string :=
  if path =? (modules ++ "@iconify-json/ri/icons.json")%string
  then inr "{ri}"
  else if path =? (modules ++ "@iconify-json/bxl/icons.json")%string
  then inr "{bxl}"
  else if path =? (modules ++ "@iconify/json/json/mdi.json")%string
  then inr "{mdi}"
  else inl (Error ("ENOENT: no such file " ++ path)%string).

Definition parse_json (text : string) : Exn + IconifyJSON Attrs :=
  if text =? "{ri}" then inr ri
  else if text =? "{bxl}" then inr bxl
  else if text =? "{mdi}" then inr mdi
  else inl (Error "Unexpected token").

Definition installed (spec : string) : bool :=
  match read_file (modules ++ spec)%string with
  | inr _ => true
  | inl _ => false
  end.

Definition resolve_path (spec : string) : Exn + string :=
  if installed spec then inr (modules ++ spec)%string
  else inl (Error ("Cannot find module " ++ spec)%string).

Definition resolve_url (spec : string) : Exn + string :=
  if installed spec then inr ("file://" ++ modules ++ spec)%string
  else inl (Error ("Cannot find package " ++ spec)%string).

Definition url_to_path (url : string) : Exn + string :=
  if String.prefix "file://" url
  then inr (String.substring 7 (String.length url - 7) url)
  else inl (Error "The URL must be of scheme file").

#[export] Instance node : Node iconify := {|
  fs_readFile := read_file;
  fs_mkdir := fun _ => inr tt;
  fs_writeFile := fun _ _ => inr tt;
  JSON_parse := parse_json;
  import_meta_resolve := resolve_url;
  require_resolve := resolve_path;
  fileURLToPath := url_to_path;
  dirname := fun _ => "/app/src/plugins/iconify";
  target := "/app/src/plugins/iconify/icons.css"
|}.

Definition custom : CustomSVG.t := CustomSVG.mk "assets/svg" true "custom".

(** A configuration with a directory of SVG files and bare references. *)
Definition config : BundleScriptConfig.t :=
  BundleScriptConfig.mk
    (Some [custom])
    (Some ["mdi:home"; "mdi:account"; "oops"; "mdi:home"])
    (Some []).

(** A configuration that refers to an icon set that is not installed. *)
Definition missing : BundleScriptConfig.t :=
  BundleScriptConfig.mk (Some [custom]) (Some ["fa:home"]) (Some []).

(** What the run on [config] has when it reaches the directories, and what
    it has collected in the end. *)
Definition loaded : BundleScriptConfig.t * list (IconifyJSON Attrs) :=
  Eval vm_compute in
    match outcome (collect_json resolve_cjs config) with
    | inr l => l
    | inl _ => (config, [])
    end.

Definition collected : list (IconifyJSON Attrs) :=
  Eval vm_compute in
    match outcome (collect_icons resolve_cjs config) with
    | inr l => l
    | inl _ => []
    end.

End Example.

(* ================================================================= *)
(** ** What the further properties are stated with *)

Section Further.
Context {I : Iconify} {node : Node I}.

(** The references that [stringToIcon] reads off a list of strings. *)
Definition references (icons : list string) : list IconifyIconName :=
  flat_map
    (fun icon =>
       match stringToIcon icon with
       | Some r => [r]
       | None => []
       end)
    icons.

(** [`@iconify/json/json/${prefix}.json`] *)
Definition package_file (p : string) : string :=
  ("@iconify/json/json/" ++ p ++ ".json")%string.

(** The descriptor pushed for a property of [organizedList], when the file
    of the prefix is found at [path prefix]. *)
Definition converted_source (path : string -> string)
  (e : string * list string) : JSONSource :=
  inr (CustomJSON.mk (path (fst e)) (Some (snd e))).

Definition json_list (sources : BundleScriptConfig.t) : list JSONSource :=
  match BundleScriptConfig.json sources with
  | Some l => l
  | None => []
  end.

Definition icon_list (sources : BundleScriptConfig.t) : list string :=
  match BundleScriptConfig.icons sources with
  | Some l => l
  | None => []
  end.

(** [set] is what a turn of the loop over [sources.json] pushes for
    [item]. *)
Definition loaded_from (item : JSONSource) (set : IconifyJSON Icon) : Prop :=
  exists text content,
    fs_readFile (source_filename item) = inr text /\
    JSON_parse text = inr content /\
    match source_filter item with
    | Some names => getIcons content names = Some set
    | None => set = content
    end.

(** What the callback logs for an entry: the error of an icon whose
    clean-up throws. *)
Definition entry_error (source : CustomSVG.t) (e : string * (string * Icon))
  : list Event :=
  if IconSetModel.is_icon e
  then match icon_toSVG (snd (snd e)) with
       | Some svg =>
           match outcome (cleanup_icon source svg) with
           | inl err =>
               [ConsoleError
                  [LStr ("Error parsing " ++ fst e ++ " from "
                           ++ CustomSVG.dir source ++ ":")%string;
                   LErr err]]
           | inr _ => []
           end
       | None => []
       end
  else [].

Definition parse_errors (source : CustomSVG.t) (es : Js.Obj (string * Icon))
  : list Event :=
  flat_map (entry_error source) es.

(** The same platform with another [fs.mkdir]. *)
Definition with_mkdir (mkdir' : string -> Exn + unit) : Node I :=
  {| fs_readFile := fs_readFile;
     fs_mkdir := mkdir';
     fs_writeFile := fs_writeFile;
     JSON_parse := JSON_parse;
     import_meta_resolve := import_meta_resolve;
     require_resolve := require_resolve;
     fileURLToPath := fileURLToPath;
     dirname := dirname;
     target := target |}.

(** The events of a run before the stylesheet is written: the creation of
    the output directory and the errors of icons. *)
Definition collecting_event (ev : Event) : Prop :=
  ev = Mkdir (dirname target) \/ exists args, ev = ConsoleError args.

(** What a run does once the icons are collected, or once collecting them
    has thrown. *)
Definition closing_events (collected : Exn + list (IconifyJSON Icon))
  : list Event :=
  match collected with
  | inl e => [ConsoleError [LErr e]]
  | inr allIcons =>
      WriteFile target (cssContent allIcons)
      :: match fs_writeFile target (cssContent allIcons) with
         | inr _ =>
             [ConsoleLog [LStr ("Saved CSS to " ++ target ++ "!")%string]]
         | inl e => [ConsoleError [LErr e]]
         end
  end.

End Further.

(* ================================================================= *)
(** ** Colour attributes *)

(** Modelled from the spec: [parseColors] of [@iconify/tools] is not part
    of the repository.  An SVG instance is seen through its colour
    attributes: [colour_at svg attr] is the value of the colour attribute
    [attr] when the icon has it, and [stringToColor] is the toolkit's
    reading of a colour string.  [parseColors] replaces the value of every
    colour attribute that the icon has by the answer of the callback.  The
    spec does not say what becomes of a colour attribute that the icon
    does not have: [defaulted svg attr] tells where the toolkit sets it to
    the option [defaultColor], as it does for the fill of a shape, and it
    stays absent elsewhere. *)
Definition parseColors_contract {I : Iconify}
  (colour_at : SVG -> string -> option string)
  (stringToColor : string -> option Color)
  (defaulted : SVG -> string -> bool) : Prop :=
  forall (svg : SVG) (options : ParseColorsOptions Color) (svg' : SVG),
    parseColors svg options = inr svg' ->
    forall attr,
      colour_at svg' attr
      = match colour_at svg attr with
        | Some colorStr =>
            Some (callback options attr colorStr (stringToColor colorStr))
        | None =>
            if defaulted svg attr then Some (defaultColor options) else None
        end.

(** The small installation with a [parseColors] that gives the default
    colour to a path without fill. *)
Module Defaulting.

Definition colour_at (svg : Example.Attrs) (attr : string) : option string :=
  if Example.is_colour_attr attr then Js.get attr svg else None.

Definition defaulted (svg : Example.Attrs) (attr : string) : bool :=
  attr =? "fill".

Definition recoloured (options : ParseColorsOptions Example.Colour)
  (svg : Example.Attrs) : Example.Attrs :=
  map (fun a =>
         if Example.is_colour_attr (fst a)
         then (fst a, callback options (fst a) (snd a)
                        (Example.stringToColor (snd a)))
         else a)
      svg.

Definition recolour (svg : Example.Attrs)
  (options : ParseColorsOptions Example.Colour) : Exn + Example.Attrs :=
  inr match Js.get "fill" svg with
      | Some _ => recoloured options svg
      | None => recoloured options svg ++ [("fill", defaultColor options)]
      end.

#[export] Instance iconify : Iconify := {|
  Icon := Example.Attrs;
  SVG := Example.Attrs;
  Color := Example.Colour;
  stringToIcon := Example.parse_reference;
  getIcons := Example.pick;
  getIconsCSS := Example.render;
  isEmptyColor := Example.is_empty;
  cleanupSVG := Example.clean;
  parseColors := recolour;
  runSVGO := inr;
  importDirectory := Example.read_directory;
  icon_toSVG := Example.to_svg;
  svg_getIcon := fun svg => svg
|}.

(** A path without fill. *)
Definition plain : Example.Attrs := [("d", "M0 0h8")].

End Defaulting.

(** The small installation without any package. *)
Module Uninstalled.

Definition resolve_path (spec : string) : Exn + string :=
  inl (Error ("Cannot find module " ++ spec)%string).

Definition resolve_url (spec : string) : Exn + string :=
  inl (Error ("Cannot find package " ++ spec)%string).

#[export] Instance node : Node Example.iconify := {|
  fs_readFile := Example.read_file;
  fs_mkdir := fun _ => inr tt;
  fs_writeFile := fun _ _ => inr tt;
  JSON_parse :=
    Example.parse_json
    : string -> Exn + IconifyJSON (Icon (Iconify := Example.iconify));
  import_meta_resolve := resolve_url;
  require_resolve := resolve_path;
  fileURLToPath := Example.url_to_path;
  dirname := fun _ => "/app/src/plugins/iconify";
  target := "/app/src/plugins/iconify/icons.css"
|}.

End Uninstalled.

(* ================================================================= *)
(** * Properties *)

(** ** Objects *)

Module JsFacts.
Section Objects.
Context {V : Type}.
Implicit Types (o : Js.Obj V) (k : string) (v : V).

Lemma get_None_iff k o : Js.get k o = None <-> ~ In k (Js.keys o).
Proof.
  induction o as [|[k' v'] o IH]; simpl.
  - tauto.
  - destruct (String.eqb_spec k' k) as [->|Hne].
    + split; [discriminate | intros H; exfalso; apply H; now left].
    + rewrite IH. split.
      * intros H [E|E]; auto.
      * intros H E. apply H. now right.
Qed.


Lemma In_get k v o : Js.wf o -> In (k, v) o -> Js.get k o = Some v.
Proof.
  unfold Js.wf.
  induction o as [|[k' v'] o IH]; simpl; [tauto|].
  intros Hnd [E|Hin].
  - injection E as -> ->. now rewrite String.eqb_refl.
  - inversion Hnd as [|? ? Hnotin Hnd']; subst.
    destruct (String.eqb_spec k' k) as [->|Hne].
    + exfalso. apply Hnotin. apply (in_map fst) in Hin. exact Hin.
    + auto.
Qed.

Lemma keys_replace k v o : Js.keys (Js.replace k v o) = Js.keys o.
Proof.
  induction o as [|[k' v'] o IH]; simpl; [reflexivity|].
  destruct (k' =? k); simpl; [reflexivity | now rewrite IH].
Qed.

Lemma get_replace k v o k' :
  Js.get k' (Js.replace k v o)
  = if k =? k' then match Js.get k o with Some _ => Some v | None => None end
    else Js.get k' o.
Proof.
  induction o as [|[k0 v0] o IH]; simpl.
  - now destruct (k =? k').
  - destruct (String.eqb_spec k0 k) as [->|Hne]; simpl.
    + destruct (String.eqb_spec k k'); reflexivity.
    + rewrite IH.
      destruct (String.eqb_spec k k'), (String.eqb_spec k0 k');
        try reflexivity; congruence.
Qed.

Lemma get_insert_index i k v o k' :
  Js.get k o = None ->
  Js.get k' (Js.insert_index i k v o)
  = if k =? k' then Some v else Js.get k' o.
Proof.
  induction o as [|[k0 v0] o IH]; simpl.
  - reflexivity.
  - destruct (String.eqb_spec k0 k) as [E|Hne]; [discriminate|]. intros Hk.
    destruct (Js.array_index k0) as [j|]; [destruct (j <? i)%N|]; simpl;
      try rewrite (IH Hk);
      destruct (String.eqb_spec k k'), (String.eqb_spec k0 k');
      try reflexivity; congruence.
Qed.

Lemma get_app k o o' :
  Js.get k (o ++ o')
  = match Js.get k o with Some x => Some x | None => Js.get k o' end.
Proof.
  induction o as [|[k0 v0] o IH]; simpl; [reflexivity|].
  destruct (k0 =? k); [reflexivity | exact IH].
Qed.

(** Reading a property after an assignment. *)
Lemma get_set k v o k' :
  Js.get k' (Js.set k v o) = if k =? k' then Some v else Js.get k' o.
Proof.
  unfold Js.set. destruct (Js.get k o) as [x|] eqn:Hk.
  - rewrite get_replace, Hk. reflexivity.
  - destruct (Js.array_index k) as [i|].
    + now rewrite get_insert_index.
    + rewrite get_app. simpl.
      destruct (String.eqb_spec k k') as [E|Hne].
      * subst k'. now rewrite Hk.
      * destruct (Js.get k' o); reflexivity.
Qed.

Lemma in_keys_insert_index i k v o x :
  In x (Js.keys (Js.insert_index i k v o)) <-> x = k \/ In x (Js.keys o).
Proof.
  induction o as [|[k0 v0] o IH]; simpl.
  - intuition.
  - destruct (Js.array_index k0) as [j|]; [destruct (j <? i)%N|]; simpl;
      try rewrite IH; intuition.
Qed.

Lemma wf_insert_index i k v o :
  ~ In k (Js.keys o) -> Js.wf o -> Js.wf (Js.insert_index i k v o).
Proof.
  unfold Js.wf.
  induction o as [|[k0 v0] o IH]; simpl; intros Hk Hnd.
  - constructor; [tauto | constructor].
  - inversion Hnd as [|? ? Hnotin Hnd']; subst.
    destruct (Js.array_index k0) as [j|]; [destruct (j <? i)%N|]; simpl.
    + constructor.
      * change (~ In k0 (Js.keys (Js.insert_index i k v o))).
        rewrite in_keys_insert_index. intros [->|H]; tauto.
      * apply IH; tauto.
    + constructor; [simpl; tauto | exact Hnd].
    + constructor; [simpl; tauto | exact Hnd].
Qed.

(** An assignment keeps the properties distinct. *)
Lemma wf_set k v o : Js.wf o -> Js.wf (Js.set k v o).
Proof.
  intros Hwf. unfold Js.set. destruct (Js.get k o) as [x|] eqn:Hk.
  - unfold Js.wf. now rewrite keys_replace.
  - apply get_None_iff in Hk.
    destruct (Js.array_index k) as [i|].
    + now apply wf_insert_index.
    + unfold Js.wf, Js.keys in *. rewrite map_app. simpl.
      apply NoDup_app; [exact Hwf | constructor; [tauto | constructor] |].
      intros a Ha [<-|[]]. tauto.
Qed.

Lemma keys_delete_incl k o x :
  In x (Js.keys (Js.delete k o)) -> In x (Js.keys o).
Proof.
  induction o as [|[k0 v0] o IH]; simpl; [tauto|].
  destruct (k0 =? k); simpl; intuition.
Qed.

Lemma wf_delete k o : Js.wf o -> Js.wf (Js.delete k o).
Proof.
  unfold Js.wf.
  induction o as [|[k0 v0] o IH]; simpl; intros Hnd; [constructor|].
  inversion Hnd as [|? ? Hnotin Hnd']; subst.
  destruct (k0 =? k); [exact Hnd'|]. simpl. constructor.
  - intros H. apply Hnotin. exact (keys_delete_incl _ _ _ H).
  - auto.
Qed.

End Objects.
End JsFacts.

(* ================================================================= *)
(** ** Names in first-seen order *)

Lemma includes_In x l : Js.includes x l = true <-> In x l.
Proof.
  unfold Js.includes. rewrite existsb_exists. split.
  - intros (y & Hy & E). apply String.eqb_eq in E. now subst.
  - intros H. exists x. split; [exact H | apply String.eqb_refl].
Qed.

Lemma includes_app x l l' :
  Js.includes x (l ++ l') = (Js.includes x l || Js.includes x l')%bool.
Proof. unfold Js.includes. apply existsb_app. Qed.

Lemma In_first_seen x l : In x (first_seen l) <-> In x l.
Proof.
  induction l as [|y l IH]; simpl; [tauto|].
  rewrite filter_In, IH, negb_true_iff, String.eqb_neq.
  destruct (string_dec y x); intuition congruence.
Qed.

Lemma NoDup_first_seen l : NoDup (first_seen l).
Proof.
  induction l as [|y l IH]; simpl; constructor.
  - rewrite filter_In, negb_true_iff, String.eqb_neq. tauto.
  - now apply NoDup_filter.
Qed.

Lemma filter_filter {A} (f g : A -> bool) l :
  filter f (filter g l) = filter (fun x => (g x && f x)%bool) l.
Proof.
  induction l as [|a l IH]; simpl; [reflexivity|].
  destruct (g a); simpl; [destruct (f a)|]; now rewrite IH.
Qed.

(** Pushing the names that are not there yet, one after the other, appends
    the new names in first-seen order. *)
Lemma push_all_first_seen names : forall l,
  push_all l names
  = l ++ filter (fun y => negb (Js.includes y l)) (first_seen names).
Proof.
  unfold push_all.
  induction names as [|x names IH]; intros l; simpl.
  - now rewrite app_nil_r.
  - rewrite IH. unfold push_unique.
    destruct (Js.includes x l) eqn:Hx; simpl.
    + f_equal. rewrite filter_filter. apply filter_ext_in. intros y _.
      destruct (String.eqb_spec y x) as [->|Hne]; simpl; [now rewrite Hx|].
      reflexivity.
    + rewrite <- app_assoc. simpl. do 2 f_equal.
      rewrite filter_filter. apply filter_ext_in. intros y _.
      rewrite includes_app. simpl. rewrite orb_false_r, negb_orb.
      rewrite (String.eqb_sym y x). apply andb_comm.
Qed.

Lemma push_all_nil names : push_all [] names = first_seen names.
Proof.
  rewrite push_all_first_seen. simpl.
  induction (first_seen names) as [|y l IH]; simpl; [reflexivity|].
  now rewrite IH.
Qed.

(* ================================================================= *)
(** ** Grouping of icon references *)

Section Grouping.
Context {I : Iconify}.

Lemma organize_icon_skip sorted icon :
  stringToIcon icon = None -> organize_icon sorted icon = sorted.
Proof. intros H. unfold organize_icon. now rewrite H. Qed.

Lemma get_organize_icon sorted icon r p :
  stringToIcon icon = Some r ->
  Js.get p (organize_icon sorted icon)
  = if ref_prefix r =? p
    then Some (push_unique
                 match Js.get (ref_prefix r) sorted with
                 | Some l => l
                 | None => []
                 end (ref_name r))
    else Js.get p sorted.
Proof.
  intros H. unfold organize_icon, push_unique. rewrite H.
  destruct (Js.get (ref_prefix r) sorted) as [l|] eqn:Hp; simpl.
  - destruct (Js.includes (ref_name r) l).
    + destruct (String.eqb_spec (ref_prefix r) p) as [E|_]; congruence.
    + apply JsFacts.get_set.
  - rewrite !JsFacts.get_set.
    now destruct (ref_prefix r =? p).
Qed.

Lemma wf_organize_icon sorted icon :
  Js.wf sorted -> Js.wf (organize_icon sorted icon).
Proof.
  intros Hwf. unfold organize_icon.
  destruct (stringToIcon icon) as [r|]; [|exact Hwf].
  destruct (Js.get (ref_prefix r) sorted) as [l|]; simpl.
  - destruct (Js.includes (ref_name r) l); [exact Hwf|].
    now apply JsFacts.wf_set.
  - now do 2 apply JsFacts.wf_set.
Qed.

Lemma wf_fold_organize icons : forall sorted,
  Js.wf sorted -> Js.wf (fold_left organize_icon icons sorted).
Proof.
  induction icons as [|icon icons IH]; intros sorted Hwf; simpl.
  - exact Hwf.
  - apply IH. now apply wf_organize_icon.
Qed.

(** What the loop leaves under a prefix, from what was there before. *)
Lemma get_fold_organize icons : forall refs sorted p,
  map stringToIcon icons = map Some refs ->
  Js.get p (fold_left organize_icon icons sorted)
  = match names_under p refs with
    | [] => Js.get p sorted
    | names =>
        Some (push_all match Js.get p sorted with
                       | Some l => l
                       | None => []
                       end names)
    end.
Proof.
  induction icons as [|icon icons IH]; intros [|r refs] sorted p Hmap;
    try discriminate.
  - reflexivity.
  - simpl in Hmap. injection Hmap as Hr Hmap. simpl.
    rewrite (IH refs _ p Hmap), (get_organize_icon _ _ r p Hr).
    unfold names_under. simpl.
    destruct (String.eqb_spec (ref_prefix r) p) as [E|Hne]; simpl.
    + subst p. fold (names_under (ref_prefix r) refs).
      now destruct (names_under (ref_prefix r) refs).
    + reflexivity.
Qed.

Lemma get_organizeIconsList icons refs p :
  map stringToIcon icons = map Some refs ->
  Js.get p (organizeIconsList icons)
  = match names_under p refs with
    | [] => None
    | names => Some (first_seen names)
    end.
Proof.
  intros Hmap. unfold organizeIconsList.
  rewrite (get_fold_organize icons refs [] p Hmap). cbn [Js.get].
  destruct (names_under p refs); [reflexivity|].
  now rewrite push_all_nil.
Qed.

Lemma In_names_under p n refs :
  In n (names_under p refs) <-> In (mkIconName p n) refs.
Proof.
  unfold names_under. rewrite in_map_iff. split.
  - intros ([p' n'] & E & Hin). apply filter_In in Hin as [Hin Hp].
    simpl in *. apply String.eqb_eq in Hp. now subst.
  - intros Hin. exists (mkIconName p n). split; [reflexivity|].
    apply filter_In. split; [exact Hin | apply String.eqb_refl].
Qed.

(** C4.  When every string of the list is a valid reference (the list
    parses to the references [refs]), [organizeIconsList] yields an object
    with one property per prefix, in which a name is listed under a prefix
    exactly when a reference was written with that prefix and name; the
    list under a prefix has no duplicate, and is the list of the names
    written under the prefix, in first-seen order. *)
Theorem organizeIconsList_groups :
  forall (icons : list string) (refs : list IconifyIconName),
    map stringToIcon icons = map Some refs ->
    Js.wf (organizeIconsList icons) /\
    (forall p n,
        (exists l, Js.get p (organizeIconsList icons) = Some l /\ In n l)
        <-> In (mkIconName p n) refs) /\
    (forall p l,
        Js.get p (organizeIconsList icons) = Some l ->
        NoDup l /\ l = first_seen (names_under p refs)).
Proof.
  intros icons refs Hmap. split; [|split].
  - apply wf_fold_organize. constructor.
  - intros p n. rewrite (get_organizeIconsList icons refs p Hmap).
    rewrite <- In_names_under. split.
    + intros (l & Hl & Hin).
      destruct (names_under p refs) as [|x names]; [discriminate|].
      injection Hl as Hl. rewrite <- Hl in Hin.
      change (In n (first_seen (x :: names))) in Hin.
      exact (proj1 (In_first_seen _ _) Hin).
    + intros Hin. exists (first_seen (names_under p refs)). split.
      * destruct (names_under p refs); [destruct Hin | reflexivity].
      * exact (proj2 (In_first_seen _ _) Hin).
  - intros p l. rewrite (get_organizeIconsList icons refs p Hmap).
    intros Hl. destruct (names_under p refs) as [|x names] eqn:E;
      [discriminate|].
    injection Hl as <-.
    split; [apply (NoDup_first_seen (x :: names)) | reflexivity].
Qed.

Lemma fold_organize_filter icons : forall sorted,
  fold_left organize_icon icons sorted
  = fold_left organize_icon (filter well_formed icons) sorted.
Proof.
  induction icons as [|icon icons IH]; intros sorted; simpl.
  - reflexivity.
  - unfold well_formed at 1.
    destruct (stringToIcon icon) as [r|] eqn:Hr; simpl.
    + apply IH.
    + rewrite (organize_icon_skip _ _ Hr). apply IH.
Qed.

(** C5.  [organizeIconsList] is a total function, so it does not throw; a
    string that [stringToIcon] does not parse leaves the object as it is,
    and the result on any list is the result on the list without its
    malformed strings. *)
Theorem organizeIconsList_skips_malformed :
  forall icons : list string,
    organizeIconsList icons = organizeIconsList (filter well_formed icons).
Proof.
  intros icons. unfold organizeIconsList. apply fold_organize_filter.
Qed.

End Grouping.

(* ================================================================= *)
(** ** Computations *)

Section Computations.
Context {A B : Type}.

Lemma bind_ret (a : A) (f : A -> M B) : bind (ret a) f = f a.
Proof. unfold bind, ret. now destruct (f a). Qed.

Lemma bind_lift_inr (a : A) (f : A -> M B) : bind (lift (inr a)) f = f a.
Proof. exact (bind_ret a f). Qed.

Lemma bind_lift_inl (e : Exn) (f : A -> M B) :
  bind (lift (inl e)) f = throw e.
Proof. reflexivity. Qed.

Lemma bind_throw (e : Exn) (f : A -> M B) : bind (throw e) f = throw e.
Proof. reflexivity. Qed.

Lemma events_bind (m : M A) (f : A -> M B) :
  events (bind m f)
  = match outcome m with
    | inl _ => events m
    | inr a => events m ++ events (f a)
    end.
Proof.
  destruct m as [t [e|a]]; simpl; [reflexivity|]. now destruct (f a).
Qed.

Lemma outcome_bind (m : M A) (f : A -> M B) :
  outcome (bind m f)
  = match outcome m with
    | inl e => inl e
    | inr a => outcome (f a)
    end.
Proof.
  destruct m as [t [e|a]]; simpl; [reflexivity|]. now destruct (f a).
Qed.

End Computations.

Lemma for_each_throws {A S} (body : S -> A -> M S) a l s t e :
  body s a = (t, inl e) -> for_each (a :: l) body s = (t, inl e).
Proof. intros H. simpl. now rewrite H. Qed.

Lemma for_each_ext_in {A S} (f g : S -> A -> M S) l :
  (forall s a, In a l -> f s a = g s a) ->
  forall s, for_each l f s = for_each l g s.
Proof.
  induction l as [|a l IH]; intros H s; simpl; [reflexivity|].
  rewrite (H s a (or_introl eq_refl)). unfold bind.
  destruct (g s a) as [t [e|s']]; [reflexivity|].
  rewrite IH; [reflexivity|]. intros s0 a0 Hin. apply H. now right.
Qed.

(* ================================================================= *)
(** ** Loading of JSON icon sets *)

Section Loading.
Context {I : Iconify} {node : Node I}.

Lemma load_json_read allIcons item text content :
  fs_readFile (source_filename item) = inr text ->
  JSON_parse text = inr content ->
  load_json allIcons item
  = match source_filter item with
    | Some names =>
        match getIcons content names with
        | None =>
            throw (Error ("Cannot find required icons in "
                            ++ source_filename item)%string)
        | Some filteredContent => ret (allIcons ++ [filteredContent])
        end
    | None => ret (allIcons ++ [content])
    end.
Proof.
  intros Hread Hparse. unfold load_json.
  now rewrite Hread, bind_lift_inr, Hparse, bind_lift_inr.
Qed.


(** C9.  A descriptor without a filter, either a bare file name or an
    object without [icons], whose file is read and parsed, adds the parsed
    content itself to the collected sets. *)
Theorem load_json_unfiltered :
  forall (item : JSONSource) (text : string) (content : IconifyJSON Icon)
         (allIcons : list (IconifyJSON Icon)),
    (match item with
     | inl _ => True
     | inr c => CustomJSON.icons c = None
     end) ->
    fs_readFile (source_filename item) = inr text ->
    JSON_parse text = inr content ->
    load_json allIcons item = ret (allIcons ++ [content]).
Proof.
  intros item text content allIcons Hno Hread Hparse.
  rewrite (load_json_read allIcons item text content Hread Hparse).
  destruct item as [path|c]; simpl; [reflexivity|]. now rewrite Hno.
Qed.

(** C10.  A descriptor whose [icons] is the empty list is loaded as the
    same descriptor without [icons] is, whatever [getIcons] would answer;
    so when its file is read and parsed, the parsed content is added as it
    is, and no error about missing icons is thrown. *)
Theorem load_json_empty_filter :
  forall (filename text : string) (content : IconifyJSON Icon)
         (allIcons : list (IconifyJSON Icon)),
    fs_readFile filename = inr text ->
    JSON_parse text = inr content ->
    load_json allIcons (inr (CustomJSON.mk filename (Some [])))
    = load_json allIcons (inr (CustomJSON.mk filename None)) /\
    load_json allIcons (inr (CustomJSON.mk filename (Some [])))
    = ret (allIcons ++ [content]).
Proof.
  intros filename text content allIcons Hread Hparse. split.
  - reflexivity.
  - now rewrite (load_json_read allIcons
                   (inr (CustomJSON.mk filename (Some []))) text content
                   Hread Hparse).
Qed.

End Loading.

(* ================================================================= *)
(** ** Computations that do not write *)

Lemma writes_app t t' : writes (t ++ t') = writes t ++ writes t'.
Proof. apply filter_app. Qed.

Lemma quiet_ret {A} (a : A) : quiet (ret a).
Proof. reflexivity. Qed.

Lemma quiet_lift {A} (r : Exn + A) : quiet (lift r).
Proof. reflexivity. Qed.

Lemma quiet_throw {A} (e : Exn) : quiet (@throw A e).
Proof. reflexivity. Qed.

Lemma quiet_bind {A B} (m : M A) (f : A -> M B) :
  quiet m -> (forall a, quiet (f a)) -> quiet (bind m f).
Proof.
  unfold quiet. intros Hm Hf. rewrite events_bind.
  destruct (outcome m) as [e|a]; [exact Hm|].
  now rewrite writes_app, Hm, Hf.
Qed.

Lemma quiet_try_catch {A} (m : M A) (h : Exn -> M A) :
  quiet m -> (forall e, quiet (h e)) -> quiet (try_catch m h).
Proof.
  unfold quiet. intros Hm Hh. destruct m as [t [e|a]]; simpl in *.
  - specialize (Hh e). destruct (h e) as [t' r]. simpl in *.
    now rewrite writes_app, Hm, Hh.
  - exact Hm.
Qed.

Lemma quiet_attempt {A} (m : M A) : quiet m -> quiet (attempt m).
Proof. intros H. exact H. Qed.

Lemma quiet_for_each {A S} (body : S -> A -> M S) l :
  (forall s a, quiet (body s a)) -> forall s, quiet (for_each l body s).
Proof.
  intros Hbody. induction l as [|a l IH]; intros s; simpl.
  - apply quiet_ret.
  - apply quiet_bind; [apply Hbody | exact IH].
Qed.

Create HintDb quiet.
#[local] Hint Resolve quiet_ret quiet_lift quiet_throw quiet_bind
  quiet_try_catch quiet_attempt quiet_for_each : quiet.

Section Quiet.
Context {I : Iconify} {node : Node I}.
Variable resolve : string -> M string.
Hypothesis quiet_resolve : forall spec, quiet (resolve spec).

Lemma quiet_push_json sources item : quiet (push_json sources item).
Proof.
  unfold push_json. destruct (BundleScriptConfig.json sources); auto with quiet.
Qed.

Lemma quiet_fill_sources sources : quiet (fill_sources resolve sources).
Proof.
  unfold fill_sources.
  repeat (apply quiet_bind; [auto using quiet_push_json with quiet | intros]).
  apply quiet_push_json.
Qed.

Lemma quiet_convert_icons sources : quiet (convert_icons resolve sources).
Proof.
  unfold convert_icons.
  destruct (BundleScriptConfig.icons sources) as [[|icon icons]|];
    auto with quiet.
  apply quiet_bind; [|auto with quiet].
  apply quiet_for_each. intros s p. unfold convert_prefix.
  auto with quiet.
Qed.

Lemma quiet_load_json allIcons item : quiet (load_json allIcons item).
Proof.
  unfold load_json.
  repeat (apply quiet_bind; [auto with quiet | intros]).
  destruct (source_filter item) as [names|]; auto with quiet.
  destruct (getIcons _ names); auto with quiet.
Qed.

Lemma quiet_bundle_json sources allIcons :
  quiet (bundle_json sources allIcons).
Proof.
  unfold bundle_json. destruct (BundleScriptConfig.json sources);
    auto using quiet_load_json with quiet.
Qed.

Lemma quiet_cleanup_icon source svg : quiet (cleanup_icon source svg).
Proof.
  unfold cleanup_icon.
  repeat (apply quiet_bind; [|intros]); auto with quiet.
  destruct (CustomSVG.monotone source); auto with quiet.
Qed.

Lemma quiet_forEach_callback source name type iconSet :
  quiet (forEach_callback source name type iconSet).
Proof.
  unfold forEach_callback.
  destruct (negb (type =? "icon")); auto with quiet.
  destruct (IconSetModel.toSVG iconSet name) as [svg|]; auto with quiet.
  apply quiet_bind; [auto using quiet_cleanup_icon with quiet|].
  intros [err|svg']; auto with quiet.
  apply quiet_bind; [reflexivity | auto with quiet].
Qed.

Lemma quiet_forEach source iconSet :
  quiet (IconSetModel.forEach (forEach_callback source) iconSet).
Proof.
  unfold IconSetModel.forEach. apply quiet_for_each. intros s name.
  unfold IconSetModel.forEach_step.
  destruct (Js.get name (entries s)) as [[type icon]|];
    auto using quiet_forEach_callback with quiet.
Qed.

Lemma quiet_import_svg allIcons source : quiet (import_svg allIcons source).
Proof.
  unfold import_svg.
  repeat (apply quiet_bind; [|intros]); auto using quiet_forEach with quiet.
Qed.

Lemma quiet_bundle_svg sources allIcons :
  quiet (bundle_svg sources allIcons).
Proof.
  unfold bundle_svg. destruct (BundleScriptConfig.svg sources);
    auto using quiet_import_svg with quiet.
Qed.

Lemma quiet_collect_json sources : quiet (collect_json resolve sources).
Proof.
  unfold collect_json.
  apply quiet_bind; [apply quiet_fill_sources | intros s1].
  apply quiet_bind.
  { apply quiet_try_catch; [|auto with quiet].
    unfold mkdir. apply quiet_bind; [reflexivity | auto with quiet]. }
  intros _.
  apply quiet_bind; [apply quiet_convert_icons | intros s2].
  apply quiet_bind; [apply quiet_bundle_json | auto with quiet].
Qed.

Lemma quiet_collect_icons sources : quiet (collect_icons resolve sources).
Proof.
  unfold collect_icons.
  apply quiet_bind; [apply quiet_collect_json | intros].
  apply quiet_bundle_svg.
Qed.

(** The calls to [fs.writeFile] of a run: none when collecting the icons
    throws, one otherwise. *)
Lemma writes_run sources :
  writes (events (run resolve sources))
  = match outcome (collect_icons resolve sources) with
    | inl _ => []
    | inr allIcons => [WriteFile target (cssContent allIcons)]
    end.
Proof.
  pose proof (quiet_collect_icons sources) as Hq. unfold quiet in Hq.
  unfold run, main.
  destruct (collect_icons resolve sources) as [t [e|allIcons]];
    simpl in *.
  - now rewrite writes_app, Hq.
  - unfold writeFile. simpl.
    destruct (fs_writeFile target (cssContent allIcons)) as [e|[]]; simpl;
      rewrite ?writes_app, Hq; reflexivity.
Qed.

Lemma outcome_main_throws sources e :
  outcome (collect_icons resolve sources) = inl e ->
  outcome (main resolve sources) = inl e.
Proof.
  intros H. unfold main. rewrite outcome_bind. now rewrite H.
Qed.

End Quiet.

Section Variants.
Context {I : Iconify} {node : Node I}.

Lemma quiet_resolve_esm spec : quiet (resolve_esm spec).
Proof. unfold resolve_esm. auto with quiet. Qed.

Lemma quiet_resolve_cjs spec : quiet (resolve_cjs spec).
Proof. unfold resolve_cjs. auto with quiet. Qed.

(** C7.  In either variant, nothing is written while the icons are
    collected; when a step of the collection throws (a package file is not
    found, a file cannot be read or parsed, a filter matches no icon, a
    directory cannot be imported), the function ends with that error and
    the run has called [fs.writeFile] not once; when the collection
    succeeds, the run has called it exactly once, on the output path, with
    the whole stylesheet. *)
Theorem output_all_or_nothing :
  forall (resolve : string -> M string) (sources : BundleScriptConfig.t),
    resolve = resolve_esm \/ resolve = resolve_cjs ->
    quiet (collect_icons resolve sources) /\
    (forall e,
        outcome (collect_icons resolve sources) = inl e ->
        outcome (main resolve sources) = inl e /\
        writes (events (run resolve sources)) = []) /\
    (forall allIcons,
        outcome (collect_icons resolve sources) = inr allIcons ->
        writes (events (run resolve sources))
        = [WriteFile target (cssContent allIcons)]).
Proof.
  intros resolve sources Hres.
  assert (Hq : forall spec, quiet (resolve spec)).
  { destruct Hres as [-> | ->];
      [exact quiet_resolve_esm | exact quiet_resolve_cjs]. }
  split; [|split].
  - now apply quiet_collect_icons.
  - intros e He. split.
    + now apply outcome_main_throws.
    + rewrite (writes_run resolve Hq). now rewrite He.
  - intros allIcons Hok. rewrite (writes_run resolve Hq). now rewrite Hok.
Qed.

End Variants.

(* ================================================================= *)
(** ** The two variants *)

Lemma bind_ext_outcome {A B} (m : M A) (f g : A -> M B) :
  (forall a, outcome m = inr a -> f a = g a) -> bind m f = bind m g.
Proof.
  intros H. destruct m as [t [e|a]]; simpl; [reflexivity|].
  now rewrite (H a eq_refl).
Qed.

Section Resolution.
Context {I : Iconify} {node : Node I}.
Variable r1 : string -> M string.

Lemma push_json_fields sources item sources' :
  outcome (push_json sources item) = inr sources' ->
  BundleScriptConfig.icons sources' = BundleScriptConfig.icons sources /\
  BundleScriptConfig.svg sources' = BundleScriptConfig.svg sources.
Proof.
  unfold push_json. destruct (BundleScriptConfig.json sources); simpl;
    [|discriminate].
  intros [= <-]. now split.
Qed.

(** Filling [sources.json] leaves [sources.icons] and [sources.svg] as
    they are. *)
Lemma fill_sources_fields sources sources' :
  outcome (fill_sources r1 sources) = inr sources' ->
  BundleScriptConfig.icons sources' = BundleScriptConfig.icons sources /\
  BundleScriptConfig.svg sources' = BundleScriptConfig.svg sources.
Proof.
  unfold fill_sources. rewrite outcome_bind.
  destruct (outcome (r1 _)) as [e|ri]; [discriminate|].
  rewrite outcome_bind.
  destruct (outcome (r1 _)) as [e|bxl]; [discriminate|].
  rewrite outcome_bind.
  destruct (outcome (push_json sources (inl ri))) as [e|s1] eqn:H1;
    [discriminate|].
  intros H2. apply push_json_fields in H1, H2.
  destruct H1 as [E1 E2], H2 as [E3 E4]. split; congruence.
Qed.

Lemma convert_icons_fields sources sources' :
  outcome (convert_icons r1 sources) = inr sources' ->
  BundleScriptConfig.svg sources' = BundleScriptConfig.svg sources.
Proof.
  unfold convert_icons.
  destruct (BundleScriptConfig.icons sources) as [[|icon icons]|];
    try (intros [= <-]; reflexivity).
  rewrite outcome_bind. destruct (outcome (for_each _ _ _)) as [e|l];
    [discriminate|].
  intros [= <-]. reflexivity.
Qed.

End Resolution.

Section Agreement.
Context {I : Iconify} {node : Node I}.
Variables r1 r2 : string -> M string.
Variable sources : BundleScriptConfig.t.
Hypothesis agree : forall spec,
  In spec (package_files sources) -> r1 spec = r2 spec.

Lemma fill_sources_agree : fill_sources r1 sources = fill_sources r2 sources.
Proof.
  unfold fill_sources.
  rewrite (agree "@iconify-json/ri/icons.json"); [|now left].
  rewrite (agree "@iconify-json/bxl/icons.json"); [|right; now left].
  reflexivity.
Qed.

Lemma convert_icons_agree filled :
  BundleScriptConfig.icons filled = BundleScriptConfig.icons sources ->
  convert_icons r1 filled = convert_icons r2 filled.
Proof.
  intros Hicons. unfold convert_icons. rewrite Hicons.
  destruct (BundleScriptConfig.icons sources) as [[|icon icons]|] eqn:E;
    try reflexivity.
  f_equal. apply for_each_ext_in. intros s p Hin.
  unfold convert_prefix. rewrite agree; [reflexivity|].
  unfold package_files. rewrite E. do 2 right.
  now apply (in_map (fun p => ("@iconify/json/json/" ++ p ++ ".json")%string)).
Qed.

Lemma collect_icons_agree :
  collect_icons r1 sources = collect_icons r2 sources.
Proof.
  unfold collect_icons, collect_json. rewrite fill_sources_agree.
  f_equal. apply bind_ext_outcome. intros filled Hfilled.
  apply fill_sources_fields in Hfilled as [Hicons _].
  now rewrite (convert_icons_agree filled Hicons).
Qed.

Lemma run_agree : run r1 sources = run r2 sources.
Proof. unfold run, main. now rewrite collect_icons_agree. Qed.

End Agreement.

Section Equivalence.
Context {I : Iconify} {node : Node I}.

(** C8.  The two variants are the same function of the way package files
    are located.  When, for every package file that a run asks for,
    [fileURLToPath(await import.meta.resolve(...))] and
    [require.resolve(...)] give the same path (or fail alike), the two
    runs, on the same configuration and the same files, perform the same
    events, among them the same write of the same stylesheet, and end
    alike. *)
Theorem variants_agree :
  forall sources : BundleScriptConfig.t,
    (forall spec, In spec (package_files sources) ->
                  resolve_esm spec = resolve_cjs spec) ->
    run_esm sources = run_cjs sources /\
    writes (events (run_esm sources)) = writes (events (run_cjs sources)).
Proof.
  intros sources Hagree.
  assert (H : run_esm sources = run_cjs sources).
  { unfold run_esm, run_cjs. now apply run_agree. }
  split; [exact H | now rewrite H].
Qed.

End Equivalence.

(* ================================================================= *)
(** ** Emission of the stylesheet *)






Section Emission.
Context {I : Iconify} {node : Node I}.





End Emission.

(* ================================================================= *)
(** ** Monotone recolouring *)

Section Recolour.
Context {I : Iconify}.

(** The answers of the callback that monotone mode gives to
    [parseColors]: [currentColor] for a colour that was read and is not
    empty, and the colour string it was given for a colour that is empty
    ([none], transparent) or that could not be read. *)
Lemma parseColors_callback_answers :
  forall (attr colorStr : string) (color : option Color),
    (forall c, color = Some c -> isEmptyColor c = false ->
       callback monotone_options attr colorStr color = "currentColor") /\
    (forall c, color = Some c -> isEmptyColor c = true ->
       callback monotone_options attr colorStr color = colorStr) /\
    (color = None ->
       callback monotone_options attr colorStr color = colorStr) /\
    (forall source svg,
       CustomSVG.monotone source = true ->
       cleanup_icon source svg
       = (svg <- lift (cleanupSVG svg) ;;
          svg <- lift (parseColors svg monotone_options) ;;
          lift (runSVGO svg))).
Proof.
  intros attr colorStr color. simpl. unfold parseColors_callback.
  repeat split.
  - intros c -> Hc. now rewrite Hc.
  - intros c -> Hc. now rewrite Hc.
  - intros ->. reflexivity.
  - intros source svg Hmono. unfold cleanup_icon. now rewrite Hmono.
Qed.

End Recolour.

(* ================================================================= *)
(** ** Directories of SVG files *)

Section Entries.
Context {V : Type}.
Implicit Types (o : Js.Obj V) (k : string) (v : V).

Lemma get_app_mid k v o1 o2 :
  ~ In k (Js.keys o1) -> Js.get k (o1 ++ (k, v) :: o2) = Some v.
Proof.
  intros Hk. rewrite JsFacts.get_app.
  apply JsFacts.get_None_iff in Hk. rewrite Hk. simpl.
  now rewrite String.eqb_refl.
Qed.

Lemma delete_app_mid k v o1 o2 :
  ~ In k (Js.keys o1) -> Js.delete k (o1 ++ (k, v) :: o2) = o1 ++ o2.
Proof.
  induction o1 as [|[k0 v0] o1 IH]; simpl; intros Hk.
  - now rewrite String.eqb_refl.
  - destruct (String.eqb_spec k0 k) as [E|_]; [tauto|].
    rewrite IH; tauto.
Qed.

Lemma replace_app_mid k v v' o1 o2 :
  ~ In k (Js.keys o1) ->
  Js.replace k v' (o1 ++ (k, v) :: o2) = o1 ++ (k, v') :: o2.
Proof.
  induction o1 as [|[k0 v0] o1 IH]; simpl; intros Hk.
  - now rewrite String.eqb_refl.
  - destruct (String.eqb_spec k0 k) as [E|_]; [tauto|].
    rewrite IH; tauto.
Qed.

Lemma set_app_mid k v v' o1 o2 :
  ~ In k (Js.keys o1) ->
  Js.set k v' (o1 ++ (k, v) :: o2) = o1 ++ (k, v') :: o2.
Proof.
  intros Hk. unfold Js.set. rewrite (get_app_mid k v o1 o2 Hk).
  now apply replace_app_mid.
Qed.

Lemma wf_app_mid k v o1 o2 :
  Js.wf (o1 ++ (k, v) :: o2) ->
  ~ In k (Js.keys o1) /\ ~ In k (Js.keys o2) /\ Js.wf (o1 ++ o2).
Proof.
  unfold Js.wf, Js.keys. rewrite !map_app. simpl. intros H.
  pose proof (NoDup_remove_1 _ _ _ H) as H1.
  pose proof (NoDup_remove_2 _ _ _ H) as H2.
  rewrite in_app_iff in H2. tauto.
Qed.

End Entries.

Section Directory.
Context {I : Iconify} {node : Node I}.
Variable source : CustomSVG.t.

(** One call of the callback, on the entry it is called for: the entry
    is left, rewritten or removed, the others stay, nothing is thrown
    and nothing is written. *)
Lemma callback_entry p done e todo :
  ~ In (fst e) (Js.keys done) ->
  exists log,
    IconSetModel.forEach_step (forEach_callback source)
      (mkIconSet p (done ++ e :: todo)) (fst e)
    = (log, inr (mkIconSet p (done ++ process_entry source e ++ todo)))
    /\ writes log = [].
Proof.
  destruct e as [n [type icon]]. simpl fst. intros Hn.
  unfold IconSetModel.forEach_step. cbn [entries].
  rewrite (get_app_mid n (type, icon) done todo Hn).
  unfold forEach_callback, process_entry, processed, IconSetModel.is_icon,
    IconSetModel.toSVG.
  cbn [entries fst snd]. rewrite (get_app_mid n (type, icon) done todo Hn).
  destruct (type =? "icon") eqn:Htype; cbn [negb].
  2: { exists []. split; reflexivity. }
  destruct (icon_toSVG icon) as [svg|].
  2: { exists []. split; [|reflexivity]. unfold ret, IconSetModel.remove.
       cbn [entries set_prefix]. now rewrite delete_app_mid. }
  pose proof (quiet_cleanup_icon source svg) as Hq. unfold quiet in Hq.
  destruct (cleanup_icon source svg) as [t [err|svg']]; simpl in *.
  - eexists. split.
    + unfold IconSetModel.remove. cbn [entries set_prefix].
      rewrite delete_app_mid by exact Hn. reflexivity.
    + rewrite writes_app, Hq. reflexivity.
  - eexists. split.
    + unfold IconSetModel.fromSVG. cbn [entries set_prefix].
      rewrite (set_app_mid n (type, icon)) by exact Hn. reflexivity.
    + now rewrite app_nil_r.
Qed.

Lemma keys_process_entry e x :
  In x (Js.keys (process_entry source e)) -> x = fst e.
Proof.
  unfold process_entry. destruct (IconSetModel.is_icon e).
  - destruct (processed source (snd (snd e))); simpl; intuition.
  - simpl. intuition.
Qed.

Lemma wf_process_entry done e todo :
  Js.wf (done ++ e :: todo) ->
  Js.wf ((done ++ process_entry source e) ++ todo).
Proof.
  destruct e as [n v]. intros Hwf.
  assert (Hcases : process_entry source (n, v) = []
                   \/ exists v', process_entry source (n, v) = [(n, v')]).
  { unfold process_entry. destruct (IconSetModel.is_icon (n, v)).
    - destruct (processed source (snd (snd (n, v)))); eauto.
    - eauto. }
  destruct Hcases as [-> | [v' ->]].
  - rewrite app_nil_r. now apply wf_app_mid in Hwf.
  - rewrite <- app_assoc. unfold Js.wf, Js.keys in *.
    rewrite map_app in *. exact Hwf.
Qed.

(** The loop of [forEach], from any point on. *)
Lemma forEach_from p todo : forall done,
  Js.wf (done ++ todo) ->
  exists log,
    for_each (Js.keys todo)
      (IconSetModel.forEach_step (forEach_callback source))
      (mkIconSet p (done ++ todo))
    = (log, inr (mkIconSet p (done ++ flat_map (process_entry source) todo)))
    /\ writes log = [].
Proof.
  induction todo as [|e todo IH]; intros done Hwf.
  - exists []. split; reflexivity.
  - destruct (wf_app_mid (fst e) (snd e) done todo) as (Hn & _ & _).
    { now rewrite <- surjective_pairing. }
    destruct (callback_entry p done e todo Hn) as (log1 & Hstep & Hq1).
    destruct (IH (done ++ process_entry source e)
                 (wf_process_entry done e todo Hwf)) as (log2 & Hrest & Hq2).
    exists (log1 ++ log2). split.
    + cbn [Js.keys map for_each]. rewrite Hstep.
      rewrite <- app_assoc in Hrest. cbn [bind].
      fold (Js.keys todo). rewrite Hrest.
      cbn [flat_map]. now rewrite <- app_assoc.
    + now rewrite writes_app, Hq1, Hq2.
Qed.

Lemma export_processed p es :
  IconSetModel.export (mkIconSet p (flat_map (process_entry source) es))
  = mkJSON p (surviving source es).
Proof.
  unfold IconSetModel.export. cbn [entries set_prefix]. f_equal.
  induction es as [|e es IH]; [reflexivity|].
  cbn [flat_map surviving]. rewrite filter_app, map_app, IH. f_equal.
  unfold process_entry.
  destruct (IconSetModel.is_icon e) eqn:He.
  - destruct (processed source (snd (snd e))); reflexivity.
  - simpl. now rewrite He.
Qed.

(** A directory that is imported adds its set, whatever happens to its
    icons. *)
Lemma import_svg_ok allIcons iconSet :
  importDirectory (CustomSVG.dir source) (CustomSVG.prefix source)
  = inr iconSet ->
  Js.wf (entries iconSet) ->
  exists log,
    import_svg allIcons source
    = (log, inr (allIcons ++ [exported source iconSet]))
    /\ writes log = [].
Proof.
  intros Himport Hwf. unfold import_svg. rewrite Himport, bind_lift_inr.
  destruct iconSet as [p es]. cbn [entries] in Hwf.
  destruct (forEach_from p es [] Hwf) as (log & Hloop & Hq).
  unfold IconSetModel.forEach. cbn [entries]. simpl app in Hloop.
  rewrite Hloop. exists (log ++ []). split.
  - cbn [bind ret]. now rewrite export_processed.
  - now rewrite app_nil_r.
Qed.

End Directory.

Section Isolation.
Context {I : Iconify} {node : Node I}.

Lemma keys_surviving source es x :
  In x (Js.keys (surviving source es)) -> In x (Js.keys es).
Proof.
  induction es as [|e es IH]; [tauto|].
  unfold Js.keys in *. cbn [surviving flat_map map].
  rewrite map_app, in_app_iff. intros [H|H]; [left | right; auto].
  destruct (IconSetModel.is_icon e); [|destruct H].
  destruct (processed source (snd (snd e))); simpl in H; intuition.
Qed.

(** The exported icons are the icons of the imported set that were parsed
    and cleaned up, with the data they ended with. *)
Lemma get_surviving source es n icon :
  Js.wf es ->
  Js.get n (surviving source es) = Some icon
  <-> exists data,
        Js.get n es = Some ("icon", data) /\
        processed source data = Some icon.
Proof.
  induction es as [|[k [type data]] es IH]; intros Hwf.
  - simpl. split; [discriminate | intros (d & H & _); discriminate].
  - inversion Hwf as [|? ? Hk Hwf']; subst.
    cbn [surviving flat_map Js.get]. rewrite JsFacts.get_app.
    unfold IconSetModel.is_icon. cbn [fst snd].
    destruct (String.eqb_spec k n) as [E|Hne].
    + subst k.
      assert (Hnone : Js.get n (surviving source es) = None).
      { apply JsFacts.get_None_iff. intros H. apply Hk.
        exact (keys_surviving _ _ _ H). }
      unfold surviving, IconSetModel.is_icon in Hnone |- *.
      destruct (String.eqb_spec type "icon") as [Et|Hnt].
      * subst type. destruct (processed source data) as [i|] eqn:Hp; simpl.
        -- rewrite String.eqb_refl. split.
           ++ intros [= <-]. now exists data.
           ++ intros (d & [= <-] & Hp'). congruence.
        -- rewrite Hnone. split; [discriminate|].
           intros (d & [= <-] & Hp'). congruence.
      * simpl. rewrite Hnone. split; [discriminate|].
        intros (d & [= Ht _] & _). contradiction.
    + assert (Hskip : forall X : Js.Obj Icon,
                 (forall x, In x (Js.keys X) -> x = k) ->
                 Js.get n X = None).
      { intros X HX. apply JsFacts.get_None_iff. intros H.
        apply Hne. symmetry. now apply HX. }
      rewrite Hskip; [now apply IH|].
      intros x. destruct (type =? "icon"); [|intros []].
      destruct (processed source data); simpl; intuition.
Qed.

Lemma import_all dirs imported :
  Forall2
    (fun source iconSet =>
       importDirectory (CustomSVG.dir source) (CustomSVG.prefix source)
       = inr iconSet /\ Js.wf (entries iconSet))
    dirs imported ->
  forall allIcons,
  exists log,
    for_each dirs import_svg allIcons
    = (log,
       inr (allIcons
              ++ map (fun si => exported (fst si) (snd si))
                   (combine dirs imported)))
    /\ writes log = [].
Proof.
  induction 1 as [|source iconSet dirs imported [Himport Hwf] _ IH];
    intros allIcons.
  - exists []. simpl. now rewrite app_nil_r.
  - destruct (import_svg_ok source allIcons iconSet Himport Hwf)
      as (log1 & H1 & Hq1).
    destruct (IH (allIcons ++ [exported source iconSet]))
      as (log2 & H2 & Hq2).
    exists (log1 ++ log2). split.
    + cbn [for_each]. rewrite H1. cbn [bind]. rewrite H2.
      cbn [combine map fst snd]. now rewrite <- app_assoc.
    + now rewrite writes_app, Hq1, Hq2.
Qed.

Lemma collect_json_svg resolve sources loaded allIcons :
  outcome (collect_json resolve sources) = inr (loaded, allIcons) ->
  BundleScriptConfig.svg loaded = BundleScriptConfig.svg sources.
Proof.
  unfold collect_json. rewrite outcome_bind.
  destruct (outcome (fill_sources resolve sources)) as [e|filled] eqn:Hfill;
    [discriminate|].
  rewrite outcome_bind. destruct (outcome (try_catch _ _)); [discriminate|].
  rewrite outcome_bind.
  destruct (outcome (convert_icons resolve filled)) as [e|converted]
    eqn:Hconv; [discriminate|].
  rewrite outcome_bind. destruct (outcome (bundle_json _ _));
    [discriminate|].
  intros [= <- _].
  apply fill_sources_fields in Hfill as [_ Hsvg].
  apply convert_icons_fields in Hconv. congruence.
Qed.

(** C2.  Take a run, of either variant, that reaches the loop over the
    SVG directories with the sets [allIcons], and in which every directory
    is imported.  For each directory the set that is exported holds
    exactly the icons of the imported set for which an SVG was obtained
    and the clean-up, recolouring and optimisation did not throw, with the
    data they ended with: the other icons are removed.  No failure of an
    icon ends the run: the sets of all the directories are collected, and
    the stylesheet of all the sets is written. *)
Theorem svg_directory_isolation :
  forall (resolve : string -> M string) (sources loaded : BundleScriptConfig.t)
         (allIcons : list (IconifyJSON Icon)) (imported : list (IconSet Icon)),
    resolve = resolve_esm \/ resolve = resolve_cjs ->
    outcome (collect_json resolve sources) = inr (loaded, allIcons) ->
    Forall2
      (fun source iconSet =>
         importDirectory (CustomSVG.dir source) (CustomSVG.prefix source)
         = inr iconSet /\ Js.wf (entries iconSet))
      (svg_dirs sources) imported ->
    (forall source iconSet n icon,
        In (source, iconSet) (combine (svg_dirs sources) imported) ->
        Js.get n (icons (exported source iconSet)) = Some icon
        <-> exists data,
              Js.get n (entries iconSet) = Some ("icon", data) /\
              processed source data = Some icon) /\
    outcome (collect_icons resolve sources)
    = inr (allIcons
             ++ map (fun si => exported (fst si) (snd si))
                  (combine (svg_dirs sources) imported)) /\
    writes (events (run resolve sources))
    = [WriteFile target
         (cssContent
            (allIcons
               ++ map (fun si => exported (fst si) (snd si))
                    (combine (svg_dirs sources) imported)))].
Proof.
  intros resolve sources loaded allIcons imported Hres Hjson Himports.
  assert (Hcollect :
            outcome (collect_icons resolve sources)
            = inr (allIcons
                     ++ map (fun si => exported (fst si) (snd si))
                          (combine (svg_dirs sources) imported))).
  { unfold collect_icons. rewrite outcome_bind, Hjson. cbn [fst snd].
    unfold bundle_svg. rewrite (collect_json_svg _ _ _ _ Hjson).
    unfold svg_dirs in *.
    destruct (BundleScriptConfig.svg sources) as [dirs|].
    - destruct (import_all dirs imported Himports allIcons)
        as (log & Hloop & _).
      now rewrite Hloop.
    - inversion Himports. simpl. now rewrite app_nil_r. }
  split; [|split].
  - intros source iconSet n icon Hin. unfold exported. cbn [icons].
    apply get_surviving.
    assert (Hwf : forall dirs sets,
               Forall2
                 (fun source iconSet =>
                    importDirectory (CustomSVG.dir source)
                      (CustomSVG.prefix source) = inr iconSet
                    /\ Js.wf (entries iconSet)) dirs sets ->
               In (source, iconSet) (combine dirs sets) ->
               Js.wf (entries iconSet)).
    { induction 1 as [|s0 i0 dirs sets [_ Hwf0] _ IH]; simpl; [tauto|].
      intros [[= <- <-]|H]; auto. }
    exact (Hwf _ _ Himports Hin).
  - exact Hcollect.
  - assert (Hq : forall spec, quiet (resolve spec)).
    { destruct Hres as [-> | ->];
        [exact quiet_resolve_esm | exact quiet_resolve_cjs]. }
    now rewrite (writes_run resolve Hq), Hcollect.
Qed.

End Isolation.

(* ================================================================= *)
(** ** More on the grouping of references *)

Section Keys.
Context {V : Type}.
Implicit Types (o : Js.Obj V) (k : string) (v : V).

Lemma keys_set_present k v o x :
  Js.get k o = Some x -> Js.keys (Js.set k v o) = Js.keys o.
Proof.
  intros H. unfold Js.set. rewrite H. apply JsFacts.keys_replace.
Qed.

Lemma keys_set_new k v o :
  Js.get k o = None -> Js.array_index k = None ->
  Js.keys (Js.set k v o) = Js.keys o ++ [k].
Proof.
  intros H Hk. unfold Js.set. rewrite H, Hk. unfold Js.keys.
  now rewrite map_app.
Qed.

Lemma get_Some_keys k o x : Js.get k o = Some x -> In k (Js.keys o).
Proof.
  intros H. destruct (in_dec string_dec k (Js.keys o)) as [Hin|Hnot];
    [exact Hin|].
  apply JsFacts.get_None_iff in Hnot. congruence.
Qed.

End Keys.

Section GroupingMore.
Context {I : Iconify}.

Lemma parsed_filter icons :
  map stringToIcon (filter well_formed icons) = map Some (references icons).
Proof.
  induction icons as [|icon icons IH]; [reflexivity|].
  unfold references in *. cbn [filter flat_map]. unfold well_formed at 1.
  destruct (stringToIcon icon) as [r|] eqn:Hr; simpl.
  - now rewrite Hr, IH.
  - exact IH.
Qed.

(** What is under a prefix, for any list of strings. *)
Lemma get_organizeIconsList_any icons p :
  Js.get p (organizeIconsList icons)
  = match names_under p (references icons) with
    | [] => None
    | names => Some (first_seen names)
    end.
Proof.
  unfold organizeIconsList. rewrite fold_organize_filter.
  apply (get_organizeIconsList (filter well_formed icons)).
  apply parsed_filter.
Qed.

Lemma In_references icon r icons :
  In icon icons -> stringToIcon icon = Some r -> In r (references icons).
Proof.
  intros Hin Hr. unfold references. apply in_flat_map.
  exists icon. split; [exact Hin|]. rewrite Hr. now left.
Qed.

Lemma lists_nonempty icons :
  Forall (fun e => snd e <> []) (organizeIconsList icons).
Proof.
  apply Forall_forall. intros [p l] Hin. simpl.
  assert (Hwf : Js.wf (organizeIconsList icons)).
  { apply wf_fold_organize. constructor. }
  apply (JsFacts.In_get p l _ Hwf) in Hin.
  rewrite get_organizeIconsList_any in Hin.
  destruct (names_under p (references icons)); [discriminate|].
  injection Hin as <-. discriminate.
Qed.

(** X1.  No prefix is given an empty list: every property of the object
    that [organizeIconsList] returns holds at least one name, and the
    properties are distinct. *)
Theorem organizeIconsList_lists_nonempty :
  forall icons : list string,
    Forall (fun e => snd e <> []) (organizeIconsList icons) /\
    Js.wf (organizeIconsList icons).
Proof.
  intros icons. split; [apply lists_nonempty|].
  apply wf_fold_organize. constructor.
Qed.

Lemma keys_organize_icon sorted icon r :
  stringToIcon icon = Some r ->
  Js.array_index (ref_prefix r) = None ->
  Js.keys (organize_icon sorted icon)
  = push_unique (Js.keys sorted) (ref_prefix r).
Proof.
  intros Hr Hidx. unfold organize_icon, push_unique. rewrite Hr.
  destruct (Js.get (ref_prefix r) sorted) as [l|] eqn:Hp; simpl.
  - apply get_Some_keys in Hp as Hin. apply includes_In in Hin.
    rewrite Hin.
    destruct (Js.includes (ref_name r) l); [reflexivity|].
    now apply keys_set_present with (x := l).
  - assert (Hnot : Js.includes (ref_prefix r) (Js.keys sorted) = false).
    { destruct (Js.includes (ref_prefix r) (Js.keys sorted)) eqn:E;
        [|reflexivity].
      apply includes_In in E. apply JsFacts.get_None_iff in Hp. tauto. }
    rewrite Hnot.
    rewrite keys_set_present with (x := @nil string).
    + now apply keys_set_new.
    + rewrite JsFacts.get_set. now rewrite String.eqb_refl.
Qed.

Lemma keys_fold_organize icons : forall sorted,
  Forall (fun r => Js.array_index (ref_prefix r) = None) (references icons) ->
  Js.keys (fold_left organize_icon icons sorted)
  = push_all (Js.keys sorted) (map ref_prefix (references icons)).
Proof.
  induction icons as [|icon icons IH]; intros sorted Hall; [reflexivity|].
  unfold references in *. cbn [fold_left flat_map] in *.
  destruct (stringToIcon icon) as [r|] eqn:Hr.
  - simpl app in Hall. inversion Hall as [|? ? Hidx Hall']; subst.
    rewrite (IH _ Hall'). simpl.
    now rewrite (keys_organize_icon sorted icon r Hr Hidx).
  - simpl in Hall. rewrite (organize_icon_skip _ _ Hr). now apply IH.
Qed.

(** X2.  When no prefix is an array index (the canonical decimal form of
    an integer), the properties of the object are enumerated in the order
    in which the prefixes are first seen in the list; this is the order in
    which [for ... in] visits them. *)
Theorem organizeIconsList_prefix_order :
  forall icons : list string,
    Forall (fun r => Js.array_index (ref_prefix r) = None)
           (references icons) ->
    Js.keys (organizeIconsList icons)
    = first_seen (map ref_prefix (references icons)).
Proof.
  intros icons Hall. unfold organizeIconsList.
  rewrite (keys_fold_organize icons [] Hall). apply push_all_nil.
Qed.

Lemma organize_icon_present sorted icon r l :
  stringToIcon icon = Some r ->
  Js.get (ref_prefix r) sorted = Some l ->
  In (ref_name r) l ->
  organize_icon sorted icon = sorted.
Proof.
  intros Hr Hp Hin. unfold organize_icon. rewrite Hr, Hp. simpl.
  apply includes_In in Hin. now rewrite Hin.
Qed.

Lemma present_after icons icon r :
  In icon icons -> stringToIcon icon = Some r ->
  exists l,
    Js.get (ref_prefix r) (organizeIconsList icons) = Some l /\
    In (ref_name r) l.
Proof.
  intros Hin Hr. rewrite get_organizeIconsList_any.
  assert (Hn : In (ref_name r)
                 (names_under (ref_prefix r) (references icons))).
  { apply In_names_under. destruct r as [p n]. simpl.
    exact (In_references icon _ icons Hin Hr). }
  destruct (names_under (ref_prefix r) (references icons)) as [|x names]
    eqn:E; [destruct Hn|].
  exists (first_seen (x :: names)). split; [reflexivity|].
  exact (proj2 (In_first_seen _ _) Hn).
Qed.

(** X3.  Strings that are already in the list add nothing when they are
    listed again: the object is the one of the list without the
    repetitions that follow it. *)
Theorem organizeIconsList_repeated :
  forall icons again : list string,
    incl again icons ->
    organizeIconsList (icons ++ again) = organizeIconsList icons.
Proof.
  intros icons again Hincl. unfold organizeIconsList at 1.
  rewrite fold_left_app. fold (organizeIconsList icons).
  induction again as [|icon again IH]; [reflexivity|].
  cbn [fold_left].
  assert (Hsame : organize_icon (organizeIconsList icons) icon
                  = organizeIconsList icons).
  { destruct (stringToIcon icon) as [r|] eqn:Hr.
    - destruct (present_after icons icon r) as (l & Hl & Hin);
        [apply Hincl; now left | exact Hr |].
      exact (organize_icon_present _ icon r l Hr Hl Hin).
    - now apply organize_icon_skip. }
  rewrite Hsame. apply IH. intros x Hx. apply Hincl. now right.
Qed.

End GroupingMore.

(* ================================================================= *)
(** ** From bare references to JSON sources *)

Section Conversion.
Context {I : Iconify} {node : Node I}.

Lemma convert_loop resolve (path : string -> string) organizedList :
  Js.wf organizedList ->
  (forall p, In p (Js.keys organizedList) ->
             resolve (package_file p) = ret (path p)) ->
  forall todo sourcesJSON,
    incl todo organizedList ->
    for_each (Js.keys todo) (convert_prefix resolve organizedList)
      sourcesJSON
    = ret (sourcesJSON ++ map (converted_source path) todo).
Proof.
  intros Hwf Hres. induction todo as [|[p l] todo IH];
    intros sourcesJSON Hincl.
  - simpl. now rewrite app_nil_r.
  - cbn [Js.keys map for_each fst]. unfold convert_prefix at 1.
    fold (package_file p).
    rewrite Hres by (apply (in_map fst) with (x := (p, l));
                     apply Hincl; now left).
    rewrite bind_ret.
    rewrite (JsFacts.In_get p l _ Hwf) by (apply Hincl; now left).
    rewrite bind_ret. fold (Js.keys todo).
    rewrite IH by (intros x Hx; apply Hincl; now right).
    now rewrite <- app_assoc.
Qed.

(** X4.  When [sources.icons] is not empty and the file of every prefix
    is found, the conversion appends to [sources.json], after what is
    there, one descriptor per property of [organizeIconsList]'s object, in
    enumeration order, with the file of the prefix and the names listed
    under it; each of these descriptors has a filter that is not empty, so
    that it is loaded through [getIcons]. *)
Theorem convert_icons_descriptors :
  forall (resolve : string -> M string) (sources : BundleScriptConfig.t)
         (first : string) (others : list string) (path : string -> string),
    BundleScriptConfig.icons sources = Some (first :: others) ->
    (forall p, In p (Js.keys (organizeIconsList (first :: others))) ->
               resolve (package_file p) = ret (path p)) ->
    convert_icons resolve sources
    = ret (BundleScriptConfig.mk
             (BundleScriptConfig.svg sources)
             (BundleScriptConfig.icons sources)
             (Some (json_list sources
                      ++ map (converted_source path)
                           (organizeIconsList (first :: others))))) /\
    Forall (fun e => source_filter (converted_source path e) = Some (snd e))
           (organizeIconsList (first :: others)).
Proof.
  intros resolve sources first others path Hicons Hres. split.
  - unfold convert_icons. rewrite Hicons.
    assert (Hwf : Js.wf (organizeIconsList (first :: others))).
    { apply wf_fold_organize. constructor. }
    fold (json_list sources).
    rewrite (convert_loop resolve path _ Hwf Hres _ _ (incl_refl _)).
    now rewrite bind_ret.
  - pose proof (lists_nonempty (first :: others))
      as Hne.
    rewrite Forall_forall in *. intros [p l] Hin. specialize (Hne _ Hin).
    simpl in *. destruct l; [contradiction | reflexivity].
Qed.

End Conversion.

(* ================================================================= *)
(** ** The loops that collect the icon sets *)

Lemma events_lift {A} (r : Exn + A) : events (lift r) = [].
Proof. reflexivity. Qed.

(** A loop whose turns each push one element pushes one element per
    turn, in order, and keeps what was there. *)
Lemma for_each_pushes {A X} (body : list X -> A -> M (list X))
  (R : A -> X -> Prop) :
  (forall s a s', outcome (body s a) = inr s' ->
                  exists x, s' = s ++ [x] /\ R a x) ->
  forall l s s',
    outcome (for_each l body s) = inr s' ->
    exists added, s' = s ++ added /\ Forall2 R l added.
Proof.
  intros Hbody. induction l as [|a l IH]; intros s s'; cbn [for_each].
  - intros [= <-]. exists []. split; [now rewrite app_nil_r | constructor].
  - rewrite outcome_bind.
    destruct (outcome (body s a)) as [e|s1] eqn:H1; [discriminate|].
    intros H2. destruct (Hbody s a s1 H1) as (x & -> & Hx).
    destruct (IH _ _ H2) as (added & -> & Hadded).
    exists (x :: added). split; [now rewrite <- app_assoc | now constructor].
Qed.

Lemma for_each_quiet_events {A S} (body : S -> A -> M S) l :
  (forall s a, events (body s a) = []) ->
  forall s, events (for_each l body s) = [].
Proof.
  intros Hbody. induction l as [|a l IH]; intros s; [reflexivity|].
  cbn [for_each]. rewrite events_bind, Hbody.
  destruct (outcome (body s a)); [reflexivity | apply IH].
Qed.

Section Loops.
Context {I : Iconify} {node : Node I}.

Lemma events_load_json allIcons item : events (load_json allIcons item) = [].
Proof.
  unfold load_json.
  destruct (fs_readFile (source_filename item)) as [e|text];
    [reflexivity|].
  rewrite bind_lift_inr.
  destruct (JSON_parse text) as [e|content]; [reflexivity|].
  rewrite bind_lift_inr.
  destruct (source_filter item) as [names|]; [|reflexivity].
  now destruct (getIcons content names).
Qed.

(** X5.  A source whose file cannot be read, or whose text cannot be
    parsed, ends the loop over [sources.json] with that very error, with
    or without a filter, and whatever follows it in the list. *)
Theorem load_json_unreadable :
  forall (item : JSONSource) (rest : list JSONSource)
         (allIcons : list (IconifyJSON Icon)) (e : Exn),
    fs_readFile (source_filename item) = inl e \/
    (exists text, fs_readFile (source_filename item) = inr text /\
                  JSON_parse text = inl e) ->
    for_each (item :: rest) load_json allIcons = throw e.
Proof.
  intros item rest allIcons e H. apply for_each_throws.
  unfold load_json. destruct H as [Hread | (text & Hread & Hparse)].
  - now rewrite Hread.
  - now rewrite Hread, bind_lift_inr, Hparse.
Qed.

Lemma load_json_inv allIcons item all' :
  outcome (load_json allIcons item) = inr all' ->
  exists set, all' = allIcons ++ [set] /\ loaded_from item set.
Proof.
  unfold load_json, loaded_from.
  destruct (fs_readFile (source_filename item)) as [e|text] eqn:Hread;
    [discriminate|].
  rewrite bind_lift_inr.
  destruct (JSON_parse text) as [e|content] eqn:Hparse; [discriminate|].
  rewrite bind_lift_inr.
  destruct (source_filter item) as [names|].
  - destruct (getIcons content names) as [filtered|] eqn:Hget;
      [|discriminate].
    intros [= <-]. exists filtered. split; [reflexivity|].
    exists text, content. auto.
  - intros [= <-]. exists content. split; [reflexivity|].
    exists text, content. auto.
Qed.

Lemma load_json_loaded allIcons item set :
  loaded_from item set -> load_json allIcons item = ret (allIcons ++ [set]).
Proof.
  intros (text & content & Hread & Hparse & Hset).
  rewrite (load_json_read allIcons item text content Hread Hparse).
  destruct (source_filter item) as [names|]; [now rewrite Hset | now subst].
Qed.

Lemma load_all l : forall allIcons added,
  Forall2 loaded_from l added ->
  for_each l load_json allIcons = ret (allIcons ++ added).
Proof.
  induction l as [|item l IH]; intros allIcons added Hall;
    inversion Hall as [|? set ? added' Hset Hrest]; subst.
  - simpl. now rewrite app_nil_r.
  - cbn [for_each]. rewrite (load_json_loaded allIcons item set Hset).
    rewrite bind_ret, (IH _ added' Hrest). now rewrite <- app_assoc.
Qed.

Lemma bundle_json_inv sources allIcons all' :
  outcome (bundle_json sources allIcons) = inr all' ->
  exists added,
    all' = allIcons ++ added /\
    Forall2 loaded_from (json_list sources) added.
Proof.
  unfold bundle_json, json_list.
  destruct (BundleScriptConfig.json sources) as [l|].
  - apply for_each_pushes. intros s a s' H.
    exact (load_json_inv s a s' H).
  - intros [= <-]. exists []. split; [now rewrite app_nil_r | constructor].
Qed.

(** X6.  The loop over [sources.json] succeeds exactly when every source
    can be loaded; it then keeps the sets collected before and appends one
    set per source, in the order of the sources: the parsed content of
    the file, or what [getIcons] keeps of it when the source has a filter.
    It performs no event. *)
Theorem bundle_json_in_order :
  forall (sources : BundleScriptConfig.t)
         (allIcons all' : list (IconifyJSON Icon)),
    (outcome (bundle_json sources allIcons) = inr all'
     <-> exists added,
           all' = allIcons ++ added /\
           Forall2 loaded_from (json_list sources) added) /\
    events (bundle_json sources allIcons) = [].
Proof.
  intros sources allIcons all'. split; [split|].
  - apply bundle_json_inv.
  - unfold bundle_json, json_list.
    destruct (BundleScriptConfig.json sources) as [l|];
      intros (added & -> & Hall).
    + now rewrite (load_all l allIcons added).
    + inversion Hall. simpl. now rewrite app_nil_r.
  - unfold bundle_json.
    destruct (BundleScriptConfig.json sources) as [l|]; [|reflexivity].
    apply for_each_quiet_events. intros s a. apply events_load_json.
Qed.

Lemma push_json_inv sources item sources' :
  outcome (push_json sources item) = inr sources' ->
  json_list sources' = json_list sources ++ [item].
Proof.
  unfold push_json, json_list.
  destruct (BundleScriptConfig.json sources); [|discriminate].
  now intros [= <-].
Qed.

Lemma fill_sources_inv resolve sources filled :
  outcome (fill_sources resolve sources) = inr filled ->
  exists riJsonPath bxlJsonPath,
    json_list filled
    = json_list sources
        ++ [inl riJsonPath;
            inr (CustomJSON.mk bxlJsonPath (Some bxl_icons))].
Proof.
  unfold fill_sources. rewrite outcome_bind.
  destruct (outcome (resolve _)) as [e|ri]; [discriminate|].
  rewrite outcome_bind.
  destruct (outcome (resolve _)) as [e|bxl]; [discriminate|].
  rewrite outcome_bind.
  destruct (outcome (push_json sources (inl ri))) as [e|s1] eqn:H1;
    [discriminate|].
  intros H2. apply push_json_inv in H1, H2. exists ri, bxl.
  rewrite H2, H1. now rewrite <- app_assoc.
Qed.

Lemma convert_icons_inv resolve sources converted :
  outcome (convert_icons resolve sources) = inr converted ->
  length (json_list converted)
  = length (json_list sources)
    + length (Js.keys (organizeIconsList (icon_list sources))).
Proof.
  unfold convert_icons, icon_list.
  destruct (BundleScriptConfig.icons sources) as [[|icon icons]|];
    try (intros [= <-]; simpl; lia).
  rewrite outcome_bind. fold (json_list sources).
  destruct (outcome (for_each _ _ _)) as [e|l] eqn:Hloop; [discriminate|].
  intros [= <-].
  apply (for_each_pushes _ (fun _ _ => True)) in Hloop.
  - destruct Hloop as (added & -> & Hadded).
    apply Forall2_length in Hadded. unfold json_list at 1. simpl.
    rewrite length_app. lia.
  - intros s p s'. unfold convert_prefix. rewrite outcome_bind.
    destruct (outcome (resolve _)) as [e|filename]; [discriminate|].
    intros [= <-]. eauto.
Qed.

Lemma import_svg_inv allIcons source all' :
  outcome (import_svg allIcons source) = inr all' ->
  exists set, all' = allIcons ++ [set] /\ True.
Proof.
  unfold import_svg. rewrite outcome_bind.
  destruct (outcome (lift _)) as [e|iconSet]; [discriminate|].
  rewrite outcome_bind.
  destruct (outcome (IconSetModel.forEach _ _)) as [e|final];
    [discriminate|].
  intros [= <-]. eauto.
Qed.

Lemma collect_json_inv resolve sources loaded allIcons :
  outcome (collect_json resolve sources) = inr (loaded, allIcons) ->
  exists filled,
    outcome (fill_sources resolve sources) = inr filled /\
    outcome (convert_icons resolve filled) = inr loaded /\
    outcome (bundle_json loaded []) = inr allIcons.
Proof.
  unfold collect_json. rewrite outcome_bind.
  destruct (outcome (fill_sources resolve sources)) as [e|filled] eqn:Hfill;
    [discriminate|].
  rewrite outcome_bind. destruct (outcome (try_catch _ _)); [discriminate|].
  rewrite outcome_bind.
  destruct (outcome (convert_icons resolve filled)) as [e|converted]
    eqn:Hconv; [discriminate|].
  rewrite outcome_bind.
  destruct (outcome (bundle_json converted [])) as [e|all0] eqn:Hjson;
    [discriminate|].
  intros [= <- <-]. exists filled. auto.
Qed.

(** X7.  A run that collects its icons has collected one set per source:
    as many sets as [sources.json] declares, two more for the [ri] and
    [bxl] files, one per prefix of the bare references, and one per SVG
    directory. *)
Theorem collect_icons_count :
  forall (resolve : string -> M string) (sources : BundleScriptConfig.t)
         (allIcons : list (IconifyJSON Icon)),
    outcome (collect_icons resolve sources) = inr allIcons ->
    length allIcons
    = length (json_list sources) + 2
      + length (Js.keys (organizeIconsList (icon_list sources)))
      + length (svg_dirs sources).
Proof.
  intros resolve sources allIcons. unfold collect_icons.
  rewrite outcome_bind.
  destruct (outcome (collect_json resolve sources)) as [e|[loaded all0]]
    eqn:Hjson; [discriminate|].
  cbn [fst snd]. intros Hsvg.
  pose proof (collect_json_svg _ _ _ _ Hjson) as Hdirs.
  destruct (collect_json_inv _ _ _ _ Hjson)
    as (filled & Hfill & Hconv & Hload).
  destruct (fill_sources_inv _ _ _ Hfill) as (ri & bxl & Hfilled).
  apply fill_sources_fields in Hfill as [Hicons _].
  apply convert_icons_inv in Hconv.
  destruct (bundle_json_inv loaded [] all0 Hload)
    as (added & -> & Hadded).
  apply Forall2_length in Hadded.
  assert (Hlen : length allIcons = length added + length (svg_dirs sources)).
  { unfold bundle_svg in Hsvg. unfold svg_dirs. rewrite <- Hdirs.
    destruct (BundleScriptConfig.svg loaded) as [dirs|].
    - apply (for_each_pushes _ (fun _ _ => True)) in Hsvg.
      + destruct Hsvg as (sets & -> & Hsets).
        apply Forall2_length in Hsets. rewrite length_app. simpl. lia.
      + intros s a s' H. exact (import_svg_inv s a s' H).
    - injection Hsvg as <-. simpl. lia. }
  unfold icon_list in *. rewrite Hicons in Hconv.
  rewrite Hfilled, length_app in Hconv. simpl in Hconv. lia.
Qed.

End Loops.

(* ================================================================= *)
(** ** What a directory logs *)

Lemma for_each_app {A S} (body : S -> A -> M S) l1 l2 s :
  for_each (l1 ++ l2) body s
  = bind (for_each l1 body s) (for_each l2 body).
Proof.
  revert s. induction l1 as [|a l1 IH]; intros s; cbn [app for_each].
  - now rewrite bind_ret.
  - destruct (body s a) as [t [e|s1]]; cbn [bind]; [reflexivity|].
    rewrite IH. destruct (for_each l1 body s1) as [t1 [e|s2]]; cbn [bind].
    + reflexivity.
    + destruct (for_each l2 body s2) as [t2 r]. now rewrite app_assoc.
Qed.

Section DirectoryLog.
Context {I : Iconify} {node : Node I}.
Variable source : CustomSVG.t.

Lemma events_cleanup_icon svg : events (cleanup_icon source svg) = [].
Proof.
  unfold cleanup_icon.
  destruct (cleanupSVG svg) as [e|svg1]; [reflexivity|].
  rewrite bind_lift_inr.
  destruct (CustomSVG.monotone source).
  - destruct (parseColors svg1 monotone_options) as [e|svg2];
      [reflexivity|].
    now rewrite bind_lift_inr.
  - now rewrite bind_ret.
Qed.

Lemma callback_entry_log p done e todo :
  ~ In (fst e) (Js.keys done) ->
  IconSetModel.forEach_step (forEach_callback source)
    (mkIconSet p (done ++ e :: todo)) (fst e)
  = (entry_error source e,
     inr (mkIconSet p (done ++ process_entry source e ++ todo))).
Proof.
  destruct e as [n [type icon]]. simpl fst. intros Hn.
  unfold IconSetModel.forEach_step. cbn [entries].
  rewrite (get_app_mid n (type, icon) done todo Hn).
  unfold forEach_callback, entry_error, process_entry, processed,
    IconSetModel.is_icon, IconSetModel.toSVG.
  cbn [entries fst snd]. rewrite (get_app_mid n (type, icon) done todo Hn).
  destruct (type =? "icon") eqn:Htype; cbn [negb]; [|reflexivity].
  destruct (icon_toSVG icon) as [svg|].
  2: { unfold ret, IconSetModel.remove. cbn [entries set_prefix].
       now rewrite delete_app_mid. }
  pose proof (events_cleanup_icon svg) as Hq.
  destruct (cleanup_icon source svg) as [t [err|svg']]; simpl in *; subst t.
  - unfold IconSetModel.remove. cbn [entries set_prefix].
    now rewrite delete_app_mid.
  - unfold IconSetModel.fromSVG. cbn [entries set_prefix].
    now rewrite (set_app_mid n (type, icon)).
Qed.

Lemma forEach_log_from p todo : forall done,
  Js.wf (done ++ todo) ->
  for_each (Js.keys todo)
    (IconSetModel.forEach_step (forEach_callback source))
    (mkIconSet p (done ++ todo))
  = (parse_errors source todo,
     inr (mkIconSet p (done ++ flat_map (process_entry source) todo))).
Proof.
  induction todo as [|e todo IH]; intros done Hwf; [reflexivity|].
  destruct (wf_app_mid (fst e) (snd e) done todo) as (Hn & _ & _).
  { now rewrite <- surjective_pairing. }
  pose proof (IH (done ++ process_entry source e)
                (wf_process_entry source done e todo Hwf)) as Hrest.
  cbn [Js.keys map for_each]. rewrite (callback_entry_log p done e todo Hn).
  rewrite <- app_assoc in Hrest. cbn [bind]. fold (Js.keys todo).
  rewrite Hrest. cbn [flat_map parse_errors].
  now rewrite <- app_assoc.
Qed.

Lemma forEach_exact iconSet :
  Js.wf (entries iconSet) ->
  IconSetModel.forEach (forEach_callback source) iconSet
  = (parse_errors source (entries iconSet),
     inr (mkIconSet (set_prefix iconSet)
            (flat_map (process_entry source) (entries iconSet)))).
Proof.
  intros Hwf. destruct iconSet as [p es]. unfold IconSetModel.forEach.
  cbn [entries set_prefix] in *. exact (forEach_log_from p es [] Hwf).
Qed.

Lemma import_svg_exact allIcons iconSet :
  importDirectory (CustomSVG.dir source) (CustomSVG.prefix source)
  = inr iconSet ->
  Js.wf (entries iconSet) ->
  import_svg allIcons source
  = (parse_errors source (entries iconSet),
     inr (allIcons ++ [exported source iconSet])).
Proof.
  intros Himport Hwf. unfold import_svg.
  rewrite Himport, bind_lift_inr, (forEach_exact iconSet Hwf).
  cbn [bind ret]. rewrite export_processed. now rewrite app_nil_r.
Qed.

(** X8.  On a set whose entries are distinct, the loop of [forEach] with
    the script's callback never throws.  It leaves the entries that are
    not icons as they are and where they are, keeps each icon that is
    parsed and cleaned up, with its new data and at its place, and removes
    the others; and it logs one [console.error], with the name of the icon
    and the directory, for each icon whose clean-up throws, in the order
    of the entries, and nothing for an icon without SVG. *)
Theorem forEach_keeps_and_logs :
  forall iconSet : IconSet Icon,
    Js.wf (entries iconSet) ->
    IconSetModel.forEach (forEach_callback source) iconSet
    = (parse_errors source (entries iconSet),
       inr (mkIconSet (set_prefix iconSet)
              (flat_map (process_entry source) (entries iconSet)))).
Proof. exact forEach_exact. Qed.

End DirectoryLog.

Section DirectoryFailure.
Context {I : Iconify} {node : Node I}.

Lemma import_all_exact dirs imported :
  Forall2
    (fun source iconSet =>
       importDirectory (CustomSVG.dir source) (CustomSVG.prefix source)
       = inr iconSet /\ Js.wf (entries iconSet))
    dirs imported ->
  forall allIcons,
    for_each dirs import_svg allIcons
    = (flat_map (fun si => parse_errors (fst si) (entries (snd si)))
         (combine dirs imported),
       inr (allIcons
              ++ map (fun si => exported (fst si) (snd si))
                   (combine dirs imported))).
Proof.
  induction 1 as [|source iconSet dirs imported [Himport Hwf] _ IH];
    intros allIcons.
  - simpl. now rewrite app_nil_r.
  - cbn [for_each]. rewrite (import_svg_exact source allIcons iconSet
                               Himport Hwf).
    cbn [bind]. rewrite IH. cbn [combine map flat_map fst snd].
    now rewrite <- app_assoc.
Qed.

(** X9.  A directory that cannot be imported ends the loop over
    [sources.svg] with the error of [importDirectory], whatever
    directories follow it: the loop yields no set, and its events are
    the errors logged for the icons of the directories before it, none
    for a directory after it. *)
Theorem bundle_svg_import_failure :
  forall (sources : BundleScriptConfig.t) (before after : list CustomSVG.t)
         (source : CustomSVG.t) (imported : list (IconSet Icon))
         (allIcons : list (IconifyJSON Icon)) (e : Exn),
    BundleScriptConfig.svg sources = Some (before ++ source :: after) ->
    Forall2
      (fun source iconSet =>
         importDirectory (CustomSVG.dir source) (CustomSVG.prefix source)
         = inr iconSet /\ Js.wf (entries iconSet))
      before imported ->
    importDirectory (CustomSVG.dir source) (CustomSVG.prefix source)
    = inl e ->
    bundle_svg sources allIcons
    = (flat_map (fun si => parse_errors (fst si) (entries (snd si)))
         (combine before imported),
       inl e).
Proof.
  intros sources before after source imported allIcons e Hsvg Hbefore Hfail.
  unfold bundle_svg. rewrite Hsvg, for_each_app.
  rewrite (import_all_exact before imported Hbefore allIcons). cbn [bind].
  rewrite (for_each_throws import_svg source after _ [] e).
  - now rewrite app_nil_r.
  - unfold import_svg. now rewrite Hfail.
Qed.

End DirectoryFailure.

(* ================================================================= *)
(** ** The events of a run *)

Section Only.
Variable P : Event -> Prop.

Lemma only_bind {A B} (m : M A) (f : A -> M B) :
  Forall P (events m) -> (forall a, Forall P (events (f a))) ->
  Forall P (events (bind m f)).
Proof.
  intros Hm Hf. rewrite events_bind.
  destruct (outcome m) as [e|a]; [exact Hm|].
  apply Forall_app. split; [exact Hm | apply Hf].
Qed.

Lemma only_pure {A} (m : M A) : events m = [] -> Forall P (events m).
Proof. intros ->. constructor. Qed.

Lemma only_try_catch {A} (m : M A) (h : Exn -> M A) :
  Forall P (events m) -> (forall e, Forall P (events (h e))) ->
  Forall P (events (try_catch m h)).
Proof.
  intros Hm Hh. destruct m as [t [e|a]]; simpl in *; [|exact Hm].
  specialize (Hh e). destruct (h e) as [t' r]. simpl in *.
  apply Forall_app. now split.
Qed.

Lemma only_for_each {A S} (body : S -> A -> M S) l :
  (forall s a, Forall P (events (body s a))) ->
  forall s, Forall P (events (for_each l body s)).
Proof.
  intros Hbody. induction l as [|a l IH]; intros s; cbn [for_each].
  - constructor.
  - apply only_bind; [apply Hbody | exact IH].
Qed.

End Only.

Section RunEvents.
Context {I : Iconify} {node : Node I}.

Lemma events_resolve_esm spec : events (resolve_esm spec) = [].
Proof.
  unfold resolve_esm. destruct (import_meta_resolve spec) as [e|url];
    [reflexivity|].
  now rewrite bind_lift_inr.
Qed.

Lemma events_resolve_cjs spec : events (resolve_cjs spec) = [].
Proof. reflexivity. Qed.

Variable resolve : string -> M string.
Hypothesis pure_resolve : forall spec, events (resolve spec) = [].

Lemma events_push_json sources item : events (push_json sources item) = [].
Proof.
  unfold push_json. now destruct (BundleScriptConfig.json sources).
Qed.

Lemma events_fill_sources sources : events (fill_sources resolve sources) = [].
Proof.
  unfold fill_sources. rewrite events_bind, pure_resolve.
  destruct (outcome (resolve _)) as [e|ri]; [reflexivity|].
  rewrite events_bind, pure_resolve.
  destruct (outcome (resolve _)) as [e|bxl]; [reflexivity|].
  rewrite events_bind, events_push_json.
  destruct (outcome (push_json _ _)) as [e|s1]; [reflexivity|].
  apply events_push_json.
Qed.

Lemma events_convert_icons sources :
  events (convert_icons resolve sources) = [].
Proof.
  unfold convert_icons.
  destruct (BundleScriptConfig.icons sources) as [[|icon icons]|];
    try reflexivity.
  rewrite events_bind.
  rewrite for_each_quiet_events.
  - now destruct (outcome (for_each _ _ _)).
  - intros s p. unfold convert_prefix. rewrite events_bind, pure_resolve.
    now destruct (outcome (resolve _)).
Qed.

Lemma only_forEach_callback source name type iconSet :
  Forall collecting_event
    (events (forEach_callback source name type iconSet)).
Proof.
  unfold forEach_callback.
  destruct (negb (type =? "icon")); [constructor|].
  destruct (IconSetModel.toSVG iconSet name) as [svg|]; [|constructor].
  pose proof (events_cleanup_icon source svg) as Hq.
  destruct (cleanup_icon source svg) as [t [err|svg']]; simpl in *; subst t.
  - constructor; [right; eauto | constructor].
  - constructor.
Qed.

Lemma only_import_svg allIcons source :
  Forall collecting_event (events (import_svg allIcons source)).
Proof.
  unfold import_svg.
  apply only_bind; [constructor | intros iconSet].
  apply only_bind; [|constructor].
  unfold IconSetModel.forEach. apply only_for_each. intros s name.
  unfold IconSetModel.forEach_step.
  destruct (Js.get name (entries s)) as [[type icon]|]; [|constructor].
  apply only_forEach_callback.
Qed.

Lemma only_collect_icons sources :
  Forall collecting_event (events (collect_icons resolve sources)).
Proof.
  unfold collect_icons, collect_json.
  apply only_bind.
  - apply only_bind; [apply only_pure, events_fill_sources | intros s1].
    apply only_bind.
    { apply only_try_catch; [|constructor].
      unfold mkdir. apply only_bind; [|constructor].
      constructor; [now left | constructor]. }
    intros _.
    apply only_bind; [apply only_pure, events_convert_icons | intros s2].
    apply only_bind; [|constructor].
    apply only_pure. unfold bundle_json.
    destruct (BundleScriptConfig.json s2); [|reflexivity].
    apply for_each_quiet_events. intros s a. apply events_load_json.
  - intros loaded. unfold bundle_svg.
    destruct (BundleScriptConfig.svg (fst loaded)); [|constructor].
    apply only_for_each. intros s a. apply only_import_svg.
Qed.

Lemma run_closing sources :
  run resolve sources
  = (events (collect_icons resolve sources)
       ++ closing_events (outcome (collect_icons resolve sources)),
     inr tt).
Proof.
  unfold run, main, closing_events, writeFile.
  destruct (collect_icons resolve sources) as [t [e|allIcons]]; simpl.
  - reflexivity.
  - destruct (fs_writeFile target (cssContent allIcons)) as [e|[]];
      simpl; now rewrite <- ?app_assoc.
Qed.

(** A failure to fill [sources.json] is all that the run reports. *)
Lemma run_fill_failure sources e :
  outcome (fill_sources resolve sources) = inl e ->
  run resolve sources = ([ConsoleError [LErr e]], inr tt).
Proof.
  intros Hfail. pose proof (events_fill_sources sources) as Hq.
  unfold run, main, collect_icons, collect_json.
  destruct (fill_sources resolve sources) as [t r]. simpl in *. now subst.
Qed.

End RunEvents.

Section RunShape.
Context {I : Iconify} {node : Node I}.

(** X10.  A run of either variant never rejects: whatever is thrown is
    given to [console.error] and the run ends normally.  Until the icons
    are collected the run only creates the output directory and logs the
    errors of icons.  Then, if collecting them has thrown, the error is
    logged and nothing else is done; otherwise the stylesheet is written
    to the output path, and either the success message is logged or, when
    the write throws, its error is. *)
Theorem run_events :
  forall (resolve : string -> M string) (sources : BundleScriptConfig.t),
    resolve = resolve_esm \/ resolve = resolve_cjs ->
    Forall collecting_event (events (collect_icons resolve sources)) /\
    run resolve sources
    = (events (collect_icons resolve sources)
         ++ closing_events (outcome (collect_icons resolve sources)),
       inr tt).
Proof.
  intros resolve sources Hres.
  assert (Hpure : forall spec, events (resolve spec) = []).
  { destruct Hres as [-> | ->];
      [exact events_resolve_esm | exact events_resolve_cjs]. }
  split; [now apply only_collect_icons | apply run_closing].
Qed.

Lemma bind_emit {A} (ev : Event) (f : unit -> M A) :
  bind (emit ev) f = (ev :: events (f tt), outcome (f tt)).
Proof. unfold bind, emit. now destruct (f tt). Qed.

Lemma mkdir_swallowed dir :
  try_catch (mkdir dir) (fun _ => ret tt) = emit (Mkdir dir).
Proof.
  unfold mkdir, emit, lift, bind, try_catch, ret.
  now destruct (fs_mkdir dir) as [e|[]].
Qed.

(** X12.  When one of the two package files that the script always asks
    for cannot be located, the run stops there with that error, and when
    [sources.json] is missing it stops with an error too: the only event
    of the run is the [console.error] of the error, so that the output
    directory is not created and nothing is written. *)
Theorem run_stops_without_sources :
  forall (resolve : string -> M string) (sources : BundleScriptConfig.t),
    resolve = resolve_esm \/ resolve = resolve_cjs ->
    (forall e,
        outcome (resolve "@iconify-json/ri/icons.json") = inl e \/
        (exists riJsonPath,
            outcome (resolve "@iconify-json/ri/icons.json") = inr riJsonPath
            /\ outcome (resolve "@iconify-json/bxl/icons.json") = inl e) ->
        run resolve sources = ([ConsoleError [LErr e]], inr tt)) /\
    (BundleScriptConfig.json sources = None ->
     exists e, run resolve sources = ([ConsoleError [LErr e]], inr tt)).
Proof.
  intros resolve sources Hres.
  assert (Hpure : forall spec, events (resolve spec) = []).
  { destruct Hres as [-> | ->];
      [exact events_resolve_esm | exact events_resolve_cjs]. }
  split.
  - intros e Hcause. apply (run_fill_failure resolve Hpure).
    unfold fill_sources. rewrite outcome_bind.
    destruct Hcause as [Hri | (ri & Hri & Hbxl)]; rewrite Hri;
      [reflexivity|].
    rewrite outcome_bind. now rewrite Hbxl.
  - intros Hjson.
    assert (Hfail : exists e,
               outcome (fill_sources resolve sources) = inl e).
    { unfold fill_sources. rewrite outcome_bind.
      destruct (outcome (resolve _)) as [e|ri]; [eauto|].
      rewrite outcome_bind.
      destruct (outcome (resolve _)) as [e|bxl]; [eauto|].
      rewrite outcome_bind. unfold push_json. rewrite Hjson. simpl. eauto. }
    destruct Hfail as (e & Hfail). exists e.
    exact (run_fill_failure resolve Hpure sources e Hfail).
Qed.

(** X13.  The script as it is shipped, with its empty [sources]: when the
    two package files are located, read and parsed, and [getIcons] finds
    some of the five [bxl] icons, the run creates the output directory,
    writes the stylesheet of two sets, the whole [ri] set and then the
    [bxl] icons that were found, and reports. *)
Theorem shipped_run :
  forall (resolve : string -> M string)
         (riJsonPath bxlJsonPath riText bxlText : string)
         (ri bxl filtered : IconifyJSON Icon),
    resolve "@iconify-json/ri/icons.json" = ret riJsonPath ->
    resolve "@iconify-json/bxl/icons.json" = ret bxlJsonPath ->
    fs_readFile riJsonPath = inr riText ->
    JSON_parse riText = inr ri ->
    fs_readFile bxlJsonPath = inr bxlText ->
    JSON_parse bxlText = inr bxl ->
    getIcons bxl bxl_icons = Some filtered ->
    run resolve sources
    = (Mkdir (dirname target) :: closing_events (inr [ri; filtered]),
       inr tt).
Proof.
  intros resolve riJsonPath bxlJsonPath riText bxlText ri bxl filtered
    Hri Hbxl Hread1 Hparse1 Hread2 Hparse2 Hget.
  assert (Hcollect : collect_icons resolve sources
                     = ([Mkdir (dirname target)], inr [ri; filtered])).
  { unfold collect_icons, collect_json, fill_sources.
    rewrite Hri, bind_ret, Hbxl, bind_ret. unfold push_json, sources.
    cbn [BundleScriptConfig.json BundleScriptConfig.svg
         BundleScriptConfig.icons app].
    rewrite bind_ret.
    cbn [BundleScriptConfig.json BundleScriptConfig.svg
         BundleScriptConfig.icons app].
    rewrite bind_ret, mkdir_swallowed, bind_emit. cbv beta.
    unfold convert_icons, bundle_json.
    cbn [BundleScriptConfig.json BundleScriptConfig.svg
         BundleScriptConfig.icons].
    rewrite bind_ret.
    cbn [BundleScriptConfig.json BundleScriptConfig.svg
         BundleScriptConfig.icons for_each].
    rewrite (load_json_read [] (inl riJsonPath) riText ri Hread1 Hparse1).
    cbn [source_filter]. rewrite bind_ret.
    rewrite (load_json_read _ (inr (CustomJSON.mk bxlJsonPath
                                      (Some bxl_icons)))
               bxlText bxl Hread2 Hparse2).
    assert (Hfilter : source_filter
                        (inr (CustomJSON.mk bxlJsonPath (Some bxl_icons)))
                      = Some bxl_icons) by reflexivity.
    rewrite Hfilter, Hget. rewrite !bind_ret. reflexivity. }
  rewrite run_closing, Hcollect. reflexivity.
Qed.

End RunShape.

Section Mkdir.
Context {I : Iconify} {node : Node I}.

(** X11.  What [fs.mkdir] answers makes no difference: with any other
    [fs.mkdir], that fails or not, a run of either variant performs the
    same events and ends alike. *)
Theorem mkdir_failure_swallowed :
  forall (mkdir' : string -> Exn + unit) (sources : BundleScriptConfig.t),
    run_esm (node := with_mkdir mkdir') sources = run_esm sources /\
    run_cjs (node := with_mkdir mkdir') sources = run_cjs sources.
Proof.
  intros mkdir' sources.
  unfold run_esm, run_cjs, run, main, collect_icons, collect_json.
  rewrite !mkdir_swallowed. split; reflexivity.
Qed.

End Mkdir.

(* ================================================================= *)
(** ** Monotone recolouring of the colour attributes *)

Section RecolourAttributes.
Context {I : Iconify}.

(** C3 (amended).  Take a [parseColors] that meets its contract, and an
    icon of a monotone directory that is cleaned up and recoloured.  The
    recolouring is done with the script's callback and with the default
    colour [currentColor].  A colour attribute that the icon has becomes
    [currentColor] when its value is read as a colour that is not empty,
    and keeps its value when the value is read as an empty colour ([none],
    transparent) or cannot be read.  A colour attribute that the icon does
    not have stays absent where [parseColors] gives no default colour, and
    is set to [currentColor] where it does. *)
Theorem monotone_recolor_attributes :
  forall (colour_at : SVG -> string -> option string)
         (stringToColor : string -> option Color)
         (defaulted : SVG -> string -> bool)
         (source : CustomSVG.t) (svg0 svg svg' : SVG) (attr : string),
    parseColors_contract colour_at stringToColor defaulted ->
    CustomSVG.monotone source = true ->
    cleanupSVG svg0 = inr svg ->
    parseColors svg monotone_options = inr svg' ->
    cleanup_icon source svg0 = lift (runSVGO svg') /\
    (forall colorStr c,
        colour_at svg attr = Some colorStr ->
        stringToColor colorStr = Some c -> isEmptyColor c = false ->
        colour_at svg' attr = Some "currentColor") /\
    (forall colorStr c,
        colour_at svg attr = Some colorStr ->
        stringToColor colorStr = Some c -> isEmptyColor c = true ->
        colour_at svg' attr = Some colorStr) /\
    (forall colorStr,
        colour_at svg attr = Some colorStr ->
        stringToColor colorStr = None ->
        colour_at svg' attr = Some colorStr) /\
    (colour_at svg attr = None ->
     colour_at svg' attr
     = if defaulted svg attr then Some "currentColor" else None).
Proof.
  intros colour_at stringToColor defaulted source svg0 svg svg' attr
    Hcontract Hmono Hclean Hparse.
  split.
  - unfold cleanup_icon.
    now rewrite Hclean, bind_lift_inr, Hmono, Hparse, bind_lift_inr.
  - pose proof (Hcontract svg monotone_options svg' Hparse attr) as Hattr.
    cbn [callback defaultColor monotone_options] in Hattr.
    unfold parseColors_callback in Hattr.
    repeat split.
    + intros colorStr c Hc Hs He. now rewrite Hattr, Hc, Hs, He.
    + intros colorStr c Hc Hs He. now rewrite Hattr, Hc, Hs, He.
    + intros colorStr Hc Hs. now rewrite Hattr, Hc, Hs.
    + intros Hc. now rewrite Hattr, Hc.
Qed.

End RecolourAttributes.

Lemma get_recoloured options svg attr :
  Example.is_colour_attr attr = true ->
  Js.get attr (Defaulting.recoloured options svg)
  = match Js.get attr svg with
    | Some colorStr =>
        Some (callback options attr colorStr
                (Example.stringToColor colorStr))
    | None => None
    end.
Proof.
  intros Hattr. unfold Defaulting.recoloured.
  induction svg as [|[k v] svg IH]; [reflexivity|].
  cbn [map fst snd Js.get].
  destruct (Example.is_colour_attr k) eqn:Hk; cbn [Js.get];
    destruct (String.eqb_spec k attr) as [E|Hne]; try exact IH.
  - now subst.
  - subst. congruence.
Qed.

(** The [parseColors] that gives the default colour to a path without fill
    meets the contract. *)
Lemma recolour_contract :
  parseColors_contract (I := Defaulting.iconify) Defaulting.colour_at
    Example.stringToColor Defaulting.defaulted.
Proof.
  intros svg options svg' Hparse attr.
  change (Defaulting.recolour svg options = inr svg') in Hparse.
  unfold Defaulting.recolour in Hparse. injection Hparse as <-.
  unfold Defaulting.colour_at, Defaulting.defaulted.
  destruct (Example.is_colour_attr attr) eqn:Hattr.
  - destruct (Js.get "fill" svg) as [fill|] eqn:Hfill.
    + rewrite (get_recoloured options svg attr Hattr).
      destruct (Js.get attr svg) eqn:Hget; [reflexivity|].
      destruct (String.eqb_spec attr "fill") as [E|_]; [|reflexivity].
      subst. congruence.
    + rewrite JsFacts.get_app, (get_recoloured options svg attr Hattr).
      destruct (Js.get attr svg) eqn:Hget; [reflexivity|].
      cbn [Js.get]. now rewrite String.eqb_sym.
  - destruct (String.eqb_spec attr "fill") as [E|_]; [|reflexivity].
    subst. discriminate.
Qed.

(* ================================================================= *)
(** ** The properties on the small installation *)

#[local] Existing Instance Example.iconify.
#[local] Existing Instance Example.node.

Section ExampleFacts.




End ExampleFacts.

Lemma organizeIconsList_groups_witness :
  Js.get "mdi"
    (organizeIconsList (I := Example.iconify)
       ["mdi:home"; "octicon:book-24"; "mdi:account"; "mdi:home"])
  = Some ["home"; "account"]
  /\ NoDup ["home"; "account"]
  /\ ["home"; "account"]
     = first_seen
         (names_under "mdi"
            [mkIconName "mdi" "home"; mkIconName "octicon" "book-24";
             mkIconName "mdi" "account"; mkIconName "mdi" "home"]).
Proof.
  split; [reflexivity|].
  apply (organizeIconsList_groups (I := Example.iconify)
           ["mdi:home"; "octicon:book-24"; "mdi:account"; "mdi:home"]
           [mkIconName "mdi" "home"; mkIconName "octicon" "book-24";
            mkIconName "mdi" "account"; mkIconName "mdi" "home"]
           eq_refl).
  reflexivity.
Defined.


Lemma load_json_unfiltered_witness :
  load_json (node := Example.node) []
    (inl "/app/node_modules/@iconify-json/ri/icons.json")
  = ret ([] ++ [Example.ri]).
Proof.
  apply (load_json_unfiltered (node := Example.node)
           (inl "/app/node_modules/@iconify-json/ri/icons.json") "{ri}").
  - exact I.
  - reflexivity.
  - reflexivity.
Defined.

Lemma load_json_empty_filter_witness :
  load_json (node := Example.node) []
    (inr (CustomJSON.mk "/app/node_modules/@iconify-json/ri/icons.json"
            (Some [])))
  = load_json (node := Example.node) []
      (inr (CustomJSON.mk "/app/node_modules/@iconify-json/ri/icons.json"
              None)) /\
  load_json (node := Example.node) []
    (inr (CustomJSON.mk "/app/node_modules/@iconify-json/ri/icons.json"
            (Some [])))
  = ret ([] ++ [Example.ri]).
Proof.
  apply (load_json_empty_filter (node := Example.node)
           "/app/node_modules/@iconify-json/ri/icons.json" "{ri}").
  - reflexivity.
  - reflexivity.
Defined.

Lemma output_all_or_nothing_witness :
  writes (events (run (node := Example.node) resolve_cjs Example.config))
  = [WriteFile (target (Node := Example.node))
       (cssContent (I := Example.iconify) Example.collected)] /\
  writes (events (run (node := Example.node) resolve_cjs Example.missing))
  = [].
Proof.
  split.
  - apply (output_all_or_nothing (node := Example.node) resolve_cjs
             Example.config (or_intror eq_refl)).
    vm_compute. reflexivity.
  - apply (output_all_or_nothing (node := Example.node) resolve_cjs
             Example.missing (or_intror eq_refl))
      with (e := Error "Cannot find module @iconify/json/json/fa.json").
    vm_compute. reflexivity.
Defined.

Lemma variants_agree_witness :
  run_esm (node := Example.node) Example.config
  = run_cjs (node := Example.node) Example.config /\
  writes (events (run_esm (node := Example.node) Example.config))
  = writes (events (run_cjs (node := Example.node) Example.config)).
Proof.
  apply (variants_agree (node := Example.node) Example.config).
  intros spec Hin. vm_compute in Hin.
  destruct Hin as [<-|[<-|[<-|[]]]]; reflexivity.
Defined.


Lemma svg_directory_isolation_witness :
  Js.keys (icons (exported (I := Example.iconify) Example.custom
                    (mkIconSet "custom" Example.files)))
  = ["star"; "moon"] /\
  outcome (collect_icons (node := Example.node) resolve_cjs Example.config)
  = inr (snd Example.loaded
           ++ [exported (I := Example.iconify) Example.custom
                 (mkIconSet "custom" Example.files)]) /\
  writes (events (run (node := Example.node) resolve_cjs Example.config))
  = [WriteFile (target (Node := Example.node))
       (cssContent (I := Example.iconify)
          (snd Example.loaded
             ++ [exported (I := Example.iconify) Example.custom
                   (mkIconSet "custom" Example.files)]))].
Proof.
  split; [reflexivity|].
  refine (proj2 (svg_directory_isolation (node := Example.node) resolve_cjs
                   Example.config (fst Example.loaded) (snd Example.loaded)
                   [mkIconSet "custom" Example.files]
                   (or_intror eq_refl) eq_refl _)).
  constructor; [|constructor]. split; [reflexivity|].
  repeat constructor; simpl; intuition discriminate.
Defined.

(* ================================================================= *)
(** ** The further properties on the small installation *)

Lemma organizeIconsList_prefix_order_witness :
  Js.keys (organizeIconsList (I := Example.iconify)
             ["octicon:book-24"; "mdi:home"; "oops"; "octicon:x-16"])
  = ["octicon"; "mdi"].
Proof.
  apply (organizeIconsList_prefix_order (I := Example.iconify)
           ["octicon:book-24"; "mdi:home"; "oops"; "octicon:x-16"]).
  repeat constructor.
Defined.

Lemma organizeIconsList_repeated_witness :
  organizeIconsList (I := Example.iconify)
    (["mdi:home"; "oops"; "mdi:account"] ++ ["oops"; "mdi:home"])
  = organizeIconsList (I := Example.iconify)
      ["mdi:home"; "oops"; "mdi:account"].
Proof.
  apply (organizeIconsList_repeated (I := Example.iconify)).
  intros x [<-|[<-|[]]]; simpl; tauto.
Defined.

Lemma convert_icons_descriptors_witness :
  convert_icons (I := Example.iconify) resolve_cjs Example.config
  = ret (BundleScriptConfig.mk
           (Some [Example.custom])
           (Some ["mdi:home"; "mdi:account"; "oops"; "mdi:home"])
           (Some [inr (CustomJSON.mk
                         "/app/node_modules/@iconify/json/json/mdi.json"
                         (Some ["home"; "account"]))])).
Proof.
  apply (convert_icons_descriptors (I := Example.iconify) resolve_cjs
           Example.config "mdi:home" ["mdi:account"; "oops"; "mdi:home"]
           (fun p => (Example.modules ++ package_file p)%string)
           eq_refl).
  intros p [<-|[]]. reflexivity.
Defined.

Lemma load_json_unreadable_witness :
  for_each [inl "/nowhere.json"; inl "/elsewhere.json"]
    (load_json (node := Example.node)) []
  = throw (Error "ENOENT: no such file /nowhere.json").
Proof.
  apply (load_json_unreadable (node := Example.node)).
  left. reflexivity.
Defined.

Lemma collect_icons_count_witness :
  length Example.collected = 0 + 2 + 1 + 1.
Proof.
  exact (collect_icons_count (node := Example.node) resolve_cjs
           Example.config Example.collected eq_refl).
Defined.

Lemma forEach_keeps_and_logs_witness :
  IconSetModel.forEach (I := Example.iconify)
    (forEach_callback Example.custom) (mkIconSet "custom" Example.files)
  = ([ConsoleError
        [LStr "Error parsing unsafe from assets/svg:";
         LErr (Error "Unexpected attribute onload")]],
     inr (mkIconSet "custom"
            [("star", ("icon", [("d", "M0 0h8"); ("fill", "currentColor")]));
             ("moon", ("icon", Example.moon))])).
Proof.
  apply (forEach_keeps_and_logs (I := Example.iconify) Example.custom
           (mkIconSet "custom" Example.files)).
  repeat constructor; simpl; intuition discriminate.
Defined.

Lemma bundle_svg_import_failure_witness :
  bundle_svg (I := Example.iconify)
    (BundleScriptConfig.mk
       (Some ([Example.custom]
                ++ CustomSVG.mk "nowhere" false "lost" :: [Example.custom]))
       None (Some []))
    []
  = ([ConsoleError
        [LStr "Error parsing unsafe from assets/svg:";
         LErr (Error "Unexpected attribute onload")]],
     inl (Error "ENOENT: no such directory nowhere")).
Proof.
  apply (bundle_svg_import_failure (I := Example.iconify)
           (BundleScriptConfig.mk
              (Some ([Example.custom]
                       ++ CustomSVG.mk "nowhere" false "lost"
                       :: [Example.custom]))
              None (Some []))
           [Example.custom] [Example.custom]
           (CustomSVG.mk "nowhere" false "lost")
           [mkIconSet "custom" Example.files] []
           (Error "ENOENT: no such directory nowhere") eq_refl).
  - constructor; [|constructor]. split; [reflexivity|].
    repeat constructor; simpl; intuition discriminate.
  - reflexivity.
Defined.

Lemma run_events_witness :
  Forall (collecting_event (node := Example.node))
    (events (collect_icons (node := Example.node) resolve_cjs
               Example.missing)) /\
  run (node := Example.node) resolve_cjs Example.missing
  = ([Mkdir "/app/src/plugins/iconify";
      ConsoleError
        [LErr (Error "Cannot find module @iconify/json/json/fa.json")]],
     inr tt).
Proof.
  exact (run_events (node := Example.node) resolve_cjs Example.missing
           (or_intror eq_refl)).
Defined.

Lemma run_stops_without_sources_witness :
  run (node := Uninstalled.node) (resolve_cjs (node := Uninstalled.node))
    Example.config
  = ([ConsoleError
        [LErr (Error "Cannot find module @iconify-json/ri/icons.json")]],
     inr tt) /\
  exists e,
    run (node := Example.node) (resolve_esm (node := Example.node))
      (BundleScriptConfig.mk (Some [Example.custom]) (Some ["mdi:home"])
         None)
    = ([ConsoleError [LErr e]], inr tt).
Proof.
  split.
  - exact (proj1 (run_stops_without_sources (node := Uninstalled.node)
                    (resolve_cjs (node := Uninstalled.node)) Example.config
                    (or_intror eq_refl))
             (Error "Cannot find module @iconify-json/ri/icons.json")
             (or_introl eq_refl)).
  - exact (proj2 (run_stops_without_sources (node := Example.node)
                    (resolve_esm (node := Example.node))
                    (BundleScriptConfig.mk (Some [Example.custom])
                       (Some ["mdi:home"]) None)
                    (or_introl eq_refl))
             eq_refl).
Defined.

Lemma shipped_run_witness :
  run (node := Example.node) resolve_cjs sources
  = ([Mkdir "/app/src/plugins/iconify";
      WriteFile "/app/src/plugins/iconify/icons.css"
        (cssContent (I := Example.iconify)
           [Example.ri;
            mkJSON "bxl" [("github", [("d", "M5 5")]);
                          ("google", [("d", "M7 7")])]]);
      ConsoleLog [LStr "Saved CSS to /app/src/plugins/iconify/icons.css!"]],
     inr tt).
Proof.
  exact (shipped_run (node := Example.node) resolve_cjs
           "/app/node_modules/@iconify-json/ri/icons.json"
           "/app/node_modules/@iconify-json/bxl/icons.json"
           "{ri}" "{bxl}" Example.ri Example.bxl
           (mkJSON "bxl" [("github", [("d", "M5 5")]);
                          ("google", [("d", "M7 7")])])
           eq_refl eq_refl eq_refl eq_refl eq_refl eq_refl eq_refl).
Defined.

(** C3, counterexample.  A path without fill, in the monotone directory of
    the example, with a [parseColors] that gives the default colour to a
    shape without fill, as the one of the toolkit does with the
    [defaultColor: 'currentColor'] that the script passes: the colour that
    is absent does not stay as it is, the path ends with the fill
    [currentColor]. *)
Lemma monotone_absent_fill_counterexample :
  CustomSVG.monotone Example.custom = true /\
  Defaulting.colour_at Defaulting.plain "fill" = None /\
  cleanup_icon (I := Defaulting.iconify) Example.custom Defaulting.plain
  = ret [("d", "M0 0h8"); ("fill", "currentColor")] /\
  Defaulting.colour_at [("d", "M0 0h8"); ("fill", "currentColor")] "fill"
  <> Defaulting.colour_at Defaulting.plain "fill".
Proof.
  repeat split; try reflexivity. discriminate.
Qed.

Lemma monotone_recolor_attributes_witness :
  cleanup_icon (I := Defaulting.iconify) Example.custom Example.star
  = lift (inr [("d", "M0 0h8"); ("fill", "currentColor")]) /\
  Defaulting.colour_at [("d", "M0 0h8"); ("fill", "currentColor")] "fill"
  = Some "currentColor" /\
  Defaulting.colour_at [("d", "M0 0h8"); ("fill", "currentColor")] "stroke"
  = None.
Proof.
  pose proof (monotone_recolor_attributes (I := Defaulting.iconify)
                Defaulting.colour_at Example.stringToColor
                Defaulting.defaulted Example.custom Example.star
                Example.star [("d", "M0 0h8"); ("fill", "currentColor")]
                "fill" recolour_contract eq_refl eq_refl eq_refl)
    as (Hrun & Hfill & _).
  pose proof (monotone_recolor_attributes (I := Defaulting.iconify)
                Defaulting.colour_at Example.stringToColor
                Defaulting.defaulted Example.custom Example.star
                Example.star [("d", "M0 0h8"); ("fill", "currentColor")]
                "stroke" recolour_contract eq_refl eq_refl eq_refl)
    as (_ & _ & _ & _ & Hstroke).
  split; [exact Hrun | split].
  - exact (Hfill "#ff0000" (Example.rgb "#ff0000") eq_refl eq_refl eq_refl).
  - exact (Hstroke eq_refl).
Defined.
